(** * frodo-lib: service tree synchronisation and script import

    A shallow embedding of the service operations of [src/ops/ServiceOps.ts]
    (lines 1-328) and of the script operations that follow them in the same
    file ([createOrUpdateScript], lines 466-490, and the exports of scripts,
    lines 392-458), of the commands on variables of
    [src/ops/VariablesOps.ts], and of the generators of API instances of
    [src/api/BaseApi.ts].  [deleteFullServices], whose callbacks await
    several requests in turn and so interleave, is not embedded.

    The TypeScript code is asynchronous and talks to a remote backend.  It is
    embedded as a state-and-exception monad [Async]:

    - the remote backend is a deterministic state machine ([Backend]): every
      API function is a transition of the backend's [World] that settles the
      request with a value or with an error, and the backend answers the
      requests in the order in which they are issued;
    - every request handed to the transport is appended, together with the
      way it settled, to the log [exchanges], in the order in which the code
      issues the requests; [printMessage] and [debugMessage] append to their
      own logs;
    - objects that the code mutates through a reference (the entries of an
      import envelope) live in a [heap] and are passed by location;
    - [Promise.all] starts every promise of its array, in array order, and
      only then settles: all requests of a fan-out are issued whatever their
      outcomes, and the rejection that wins is chosen by the backend's [race]
      among the rejections that occurred.  The order in which the callbacks
      of one fan-out print is taken to be the order of the array, and what
      they print is taken to be printed when the fan-out settles. *)

From Stdlib Require Import ZArith List Ascii.
From stdpp Require Import base gmap strings list.

Local Open Scope string_scope.
Local Open Scope Z_scope.

(** ** JavaScript values and errors *)

#[local] Unset Elimination Schemes.
Inductive jsval :=
| JNull
| JBool (b : bool)
| JNum (z : Z)
| JStr (s : string)
| JArr (l : list jsval)
| JObj (l : list (string * jsval)).
#[local] Set Elimination Schemes.

(** Truthiness as used by [if (detail)]. *)
Definition truthy (v : jsval) : bool :=
  match v with
  | JNull => false
  | JBool b => b
  | JNum z => negb (z =? 0)
  | JStr s => negb (String.eqb s "")
  | JArr _ | JObj _ => true
  end.

(** [error.response.data] *)
Record ErrorData := mkErrorData {
  message : option string;
  detail : option jsval
}.

(** [error.response] *)
Record ErrorResponse := mkErrorResponse {
  status : Z;
  data : option ErrorData
}.

(** A thrown value: an HTTP failure carries a [response], an error raised by
    the JavaScript runtime (a [TypeError]) does not. *)
Record JsError := mkJsError {
  error_name : string;
  error_message : string;
  response : option ErrorResponse
}.

Definition TypeError (msg : string) : JsError :=
  {| error_name := "TypeError"; error_message := msg; response := None |}.

Definition HttpError (st : Z) (msg : option string) : JsError :=
  {| error_name := "AxiosError";
     error_message := "Request failed";
     response := Some {| status := st;
                         data := Some {| message := msg; detail := None |} |} |}.

(** [error.response?.status] *)
Definition response_status (error : JsError) : option Z :=
  match response error with
  | Some r => Some (status r)
  | None => None
  end.

(** [error.response?.data?.message] *)
Definition response_message (error : JsError) : option string :=
  match response error with
  | Some {| data := Some d |} => message d
  | _ => None
  end.

(** [error.response?.data?.detail] *)
Definition response_detail (error : JsError) : option jsval :=
  match response error with
  | Some {| data := Some d |} => detail d
  | _ => None
  end.

(** [error.response?.status === n] *)
Definition status_is (n : Z) (error : JsError) : bool :=
  match response_status error with
  | Some st => st =? n
  | None => false
  end.

(** [error.response?.data?.message === m] *)
Definition message_is (m : string) (error : JsError) : bool :=
  match response_message error with
  | Some x => String.eqb x m
  | None => false
  end.

(** A template literal prints an [undefined] operand as the word. *)
Definition show (m : option string) : string :=
  match m with
  | Some s => s
  | None => "undefined"
  end.

(** ** Data model *)

(** [ServiceNextDescendent]: a child of a service, addressed by
    [_type._id] and [_id]. *)
Record ServiceNextDescendent := mkDescendent {
  _id : string;
  _type_id : string;
  body : list (string * jsval)
}.

(** The two values of which no property can be read. *)
Inductive Nullish := JsNull | JsUndefined.

Definition show_nullish (n : Nullish) : string :=
  match n with
  | JsNull => "null"
  | JsUndefined => "undefined"
  end.

(** A member of a [nextDescendents] array.  The interface declares it a
    [ServiceNextDescendent], and so it is in what the backend answers.  An
    envelope is parsed JSON: a member of it may be [null], or an object
    whose [_type] is [null] or missing, and of such a member [_type._id]
    cannot be read. *)
Inductive Member :=
| WithType (descendent : ServiceNextDescendent)
| NullMember
| WithoutType (_type : Nullish) (properties : list (string * jsval)).

(** [AmServiceSkeleton]: the id of [_type] and the remaining fields, among
    them the backend-managed [_rev] and [enabled]. *)
Record AmServiceSkeleton := mkSkeleton {
  service_id : string;
  service_type_id : string;
  fields : gmap string jsval
}.

(** [FullService extends AmServiceSkeleton] with the optional
    [nextDescendents]. *)
Record FullService := mkFullService {
  skeleton : AmServiceSkeleton;
  nextDescendents : option (list Member)
}.

Definition delete_field (k : string) (o : FullService) : FullService :=
  {| skeleton := {| service_id := service_id (skeleton o);
                    service_type_id := service_type_id (skeleton o);
                    fields := delete k (fields (skeleton o)) |};
     nextDescendents := nextDescendents o |}.

Definition delete_nextDescendents (o : FullService) : FullService :=
  {| skeleton := skeleton o; nextDescendents := None |}.

(** Script objects as [putScript] receives them. *)
Record ScriptSkeleton := mkScript {
  script_id : string;
  name : string;
  script : string
}.

Definition loc := positive.

(** [ServiceExportInterface]: [meta] and the [service] map.  The map holds
    references to the entries; [Object.entries] enumerates it in insertion
    order.  An envelope read from a file may lack the [service] key. *)
Record ServiceExportInterface := mkExport {
  meta : list (string * jsval);
  service : option (list (string * loc))
}.

(** The names of the properties that every object inherits from
    [Object.prototype]. *)
Definition Object_prototype : list string :=
  ["constructor"; "__defineGetter__"; "__defineSetter__"; "hasOwnProperty";
   "__lookupGetter__"; "__lookupSetter__"; "isPrototypeOf";
   "propertyIsEnumerable"; "toString"; "valueOf"; "__proto__";
   "toLocaleString"].

(** Whether [obj[key]] finds something under [key] in an object that has no
    entry of its own under it. *)
Definition inherited (key : string) : bool :=
  existsb (String.eqb key) Object_prototype.

(** [obj[key]] on a map kept in insertion order, as far as the entries of
    the object itself go; what an object inherits is not an entry. *)
Fixpoint property (key : string) (obj : list (string * loc)) : option loc :=
  match obj with
  | [] => None
  | (k, v) :: obj => if String.eqb k key then Some v else property key obj
  end.

(** ** Requests and the backend *)

Inductive Request :=
| GetListOfServices
| GetService (serviceId : string)
| GetServiceDescendents (serviceId : string)
| PutService (serviceId : string) (payload : FullService)
| PutServiceNextDescendent (serviceId serviceType descendentId : string)
                           (payload : ServiceNextDescendent)
| DeleteService (serviceId : string)
| DeleteServiceNextDescendent (serviceId serviceType descendentId : string)
| PutScript (scriptId : string) (payload : ScriptSkeleton).

(** What a request is answered with when it succeeds. *)
Inductive Response :=
| ServiceList (result : list AmServiceSkeleton)
| Service (service : AmServiceSkeleton)
| Descendents (result : list ServiceNextDescendent)
| Descendent (descendent : ServiceNextDescendent)
| Script (script : ScriptSkeleton).

Inductive Settled (A : Type) :=
| Fulfilled (a : A)
| Rejected (error : JsError).
Arguments Fulfilled {A} a.
Arguments Rejected {A} error.

Definition is_fulfilled {A} (r : Settled A) : bool :=
  match r with Fulfilled _ => true | Rejected _ => false end.

Definition settled_map {A C} (f : A -> C) (r : Settled A) : Settled C :=
  match r with
  | Fulfilled a => Fulfilled (f a)
  | Rejected e => Rejected e
  end.

(** A request and the way it settled. *)
Definition Exchange : Type := Request * Settled Response.

Fixpoint rejections {A} (rs : list (Settled A)) : list JsError :=
  match rs with
  | [] => []
  | Fulfilled _ :: rs => rejections rs
  | Rejected e :: rs => e :: rejections rs
  end.

Fixpoint fulfilments {A} (rs : list (Settled A)) : list A :=
  match rs with
  | [] => []
  | Fulfilled a :: rs => a :: fulfilments rs
  | Rejected _ :: rs => fulfilments rs
  end.

Record Backend := mkBackend {
  World : Type;
  api_getListOfServices :
    World -> World * Settled (list AmServiceSkeleton);
  api_getService :
    string -> World -> World * Settled AmServiceSkeleton;
  api_getServiceDescendents :
    string -> World -> World * Settled (list ServiceNextDescendent);
  api_putService :
    string -> FullService -> World -> World * Settled AmServiceSkeleton;
  api_putServiceNextDescendent :
    string -> string -> string -> ServiceNextDescendent ->
    World -> World * Settled ServiceNextDescendent;
  api_deleteService :
    string -> World -> World * Settled AmServiceSkeleton;
  api_deleteServiceNextDescendent :
    string -> string -> string ->
    World -> World * Settled ServiceNextDescendent;
  api_putScript :
    string -> ScriptSkeleton -> World -> World * Settled ScriptSkeleton;
  (** which of the rejections of a [Promise.all] settles first *)
  race : list JsError -> nat
}.

(** ** The [Async] monad *)

Section Async.
Context (B : Backend).

Record State := mkState {
  world : World B;
  heap : gmap loc FullService;
  exchanges : list Exchange;
  printed : list (string * string);
  debugged : list string
}.

Definition Async (A : Type) : Type := State -> State * Settled A.

Definition ret {A} (a : A) : Async A := fun s => (s, Fulfilled a).

Definition throw {A} (e : JsError) : Async A := fun s => (s, Rejected e).

Definition bind {A C} (m : Async A) (k : A -> Async C) : Async C :=
  fun s =>
    match m s with
    | (s', Fulfilled a) => k a s'
    | (s', Rejected e) => (s', Rejected e)
    end.

(** [try { m } catch (error) { h error }] *)
Definition try_catch {A} (m : Async A) (h : JsError -> Async A) : Async A :=
  fun s =>
    match m s with
    | (s', Fulfilled a) => (s', Fulfilled a)
    | (s', Rejected e) => h e s'
    end.

(** Starts the promises in order and records how each one settles. *)
Fixpoint all_settled {A} (ps : list (Async A)) : State -> State * list (Settled A) :=
  fun s =>
    match ps with
    | [] => (s, [])
    | p :: ps =>
        let '(s1, r) := p s in
        let '(s2, rs) := all_settled ps s1 in
        (s2, r :: rs)
    end.

(** The rejection a [Promise.all] reports, given those that occurred. *)
Definition first_rejection (e : JsError) (es : list JsError) : JsError :=
  nth (race B (e :: es)) (e :: es) e.

Definition settle_all {A} (rs : list (Settled A)) : Settled (list A) :=
  match rejections rs with
  | [] => Fulfilled (fulfilments rs)
  | e :: es => Rejected (first_rejection e es)
  end.

(** How [Promise.all([p, q])] settles, given how [p] and [q] settled. *)
Definition settle_both {A C} (r1 : Settled A) (r2 : Settled C)
  : Settled (A * C) :=
  match r1, r2 with
  | Fulfilled a, Fulfilled c => Fulfilled (a, c)
  | Rejected e, Fulfilled _ => Rejected e
  | Fulfilled _, Rejected e => Rejected e
  | Rejected e1, Rejected e2 => Rejected (first_rejection e1 [e2])
  end.

(** [Promise.all([p, q])] for two promises of different types *)
Definition promise_all2 {A C} (p : Async A) (q : Async C) : Async (A * C) :=
  fun s =>
    let '(s1, r1) := p s in
    let '(s2, r2) := q s1 in
    (s2, settle_both r1 r2).

(** [Promise.all(ps)] *)
Definition promise_all {A} (ps : list (Async A)) : Async (list A) :=
  fun s => let '(s', rs) := all_settled ps s in (s', settle_all rs).

(** ** Console *)

Definition printMessage (msg level : string) : Async unit :=
  fun s => ({| world := world s; heap := heap s; exchanges := exchanges s;
               printed := printed s ++ [(msg, level)];
               debugged := debugged s |}, Fulfilled tt).

Definition debugMessage (msg : string) : Async unit :=
  fun s => ({| world := world s; heap := heap s; exchanges := exchanges s;
               printed := printed s;
               debugged := debugged s ++ [msg] |}, Fulfilled tt).

(** ** Remote calls *)

Definition request {A} (r : Request) (answer : A -> Response)
    (h : World B -> World B * Settled A) : Async A :=
  fun s =>
    let '(w', res) := h (world s) in
    ({| world := w'; heap := heap s;
        exchanges := exchanges s ++ [(r, settled_map answer res)];
        printed := printed s; debugged := debugged s |}, res).

(** The requests issued so far. *)
Definition sent (s : State) : list Request := map fst (exchanges s).

(** ** Objects behind references *)

(** The [TypeError] of reading or deleting a property of [undefined].  A
    reference to nothing behaves as [undefined]. *)

Definition undefined_property {A} (prop : string) : Async A :=
  throw (TypeError ("Cannot read properties of undefined (reading '"
                      +:+ prop +:+ "')")).

(** [ref.prop], read through [get] *)
Definition get_property {A} (prop : string) (ref : option loc)
    (get : FullService -> A) : Async A :=
  fun s =>
    match ref with
    | Some l =>
        match heap s !! l with
        | Some o => (s, Fulfilled (get o))
        | None => undefined_property prop s
        end
    | None => undefined_property prop s
    end.

(** [ref] where it is handed to a request: the object as it is now. *)
Definition dereference (ref : option loc) : Async FullService :=
  get_property "" ref (fun o => o).

(** [delete ref.prop], the deletion done by [del] *)
Definition delete_property (prop : string) (ref : option loc)
    (del : FullService -> FullService) : Async unit :=
  fun s =>
    match ref with
    | Some l =>
        ({| world := world s; heap := alter del l (heap s); exchanges := exchanges s;
            printed := printed s; debugged := debugged s |}, Fulfilled tt)
    | None => undefined_property prop s
    end.

Definition _getListOfServices : Async (list AmServiceSkeleton) :=
  request GetListOfServices ServiceList (api_getListOfServices B).

Definition getService (serviceId : string) : Async AmServiceSkeleton :=
  request (GetService serviceId) Service (api_getService B serviceId).

Definition getServiceDescendents (serviceId : string)
  : Async (list ServiceNextDescendent) :=
  request (GetServiceDescendents serviceId) Descendents
          (api_getServiceDescendents B serviceId).

Definition putService (serviceId : string) (payload : FullService)
  : Async AmServiceSkeleton :=
  request (PutService serviceId payload) Service
          (api_putService B serviceId payload).

Definition putServiceNextDescendent
    (serviceId serviceType descendentId : string)
    (payload : ServiceNextDescendent) : Async ServiceNextDescendent :=
  request (PutServiceNextDescendent serviceId serviceType descendentId payload)
          Descendent
          (api_putServiceNextDescendent B serviceId serviceType descendentId
                                        payload).

Definition deleteService (serviceId : string) : Async AmServiceSkeleton :=
  request (DeleteService serviceId) Service (api_deleteService B serviceId).

Definition deleteServiceNextDescendent
    (serviceId serviceType descendentId : string)
  : Async ServiceNextDescendent :=
  request (DeleteServiceNextDescendent serviceId serviceType descendentId)
          Descendent
          (api_deleteServiceNextDescendent B serviceId serviceType
                                           descendentId).

Definition putScript (scriptId : string) (payload : ScriptSkeleton)
  : Async ScriptSkeleton :=
  request (PutScript scriptId payload) Script (api_putScript B scriptId payload).

End Async.

Arguments world {B} s.
Arguments heap {B} s.
Arguments exchanges {B} s.
Arguments printed {B} s.
Arguments debugged {B} s.
Arguments sent {B} s.
Arguments ret {B A} a.
Arguments throw {B A} e.
Arguments bind {B A C} m k.
Arguments try_catch {B A} m h.
Arguments all_settled {B A} ps.
Arguments promise_all {B A} ps.
Arguments promise_all2 {B A C} p q.
Arguments settle_both B {A C} r1 r2.
Arguments get_property {B A} prop ref get.
Arguments delete_property {B} prop ref del.
Arguments dereference {B} ref.
Arguments printMessage {B} msg level.
Arguments debugMessage {B} msg.

Notation "x <- m ;; k" := (bind m (fun x => k))
  (at level 62, m at next level, right associativity, only parsing).
Notation "m ;;; k" := (bind m (fun _ => k))
  (at level 62, right associativity, only parsing).

(** ** ServiceOps.ts *)

Definition capability_gap : string :=
  "This operation is not available in ForgeRock Identity Cloud.".

Section ServiceOps.
Context (B : Backend).
(** [JSON.stringify], a builtin of the language, is a parameter. *)
Context (JSON_stringify : jsval -> string).

(** The body of the [map] callback of [getFullServices]. *)
Definition getFullServices_item (listItem : AmServiceSkeleton)
  : Async B (option FullService) :=
  try_catch
    (fetched <- promise_all2 (getService B (service_id listItem))
                  (getServiceDescendents B (service_id listItem)) ;;
     let '(service, nextDescendents) := fetched in
     ret (Some {| skeleton := service;
                  nextDescendents := Some (map WithType nextDescendents) |}))
    (fun error =>
       (if negb (status_is 403 error && message_is capability_gap error)
        then
          let message := response_message error in
          printMessage
            ("Unable to retrieve data for " +:+ service_id listItem
               +:+ " with error: " +:+ show message)
            "error"
        else ret tt) ;;;
       ret None).

(** [getFullServices] (ServiceOps.ts 44-80).  [_getListOfServices] stands
    for the [result] of its answer. *)
Definition getFullServices : Async B (list FullService) :=
  debugMessage "ServiceOps.getFullServices: start" ;;;
  serviceList <- _getListOfServices B ;;
  fullServiceData <- promise_all (map getFullServices_item serviceList) ;;
  debugMessage "ServiceOps.getFullServices: end" ;;;
  ret (omap id fullServiceData).

(** [deleteFullService] (ServiceOps.ts 190-204) *)
Definition deleteFullService (serviceId : string) : Async B unit :=
  serviceNextDescendentData <- getServiceDescendents B serviceId ;;
  promise_all
    (map (fun nextDescendent =>
            deleteServiceNextDescendent B serviceId
              (_type_id nextDescendent) (_id nextDescendent))
         serviceNextDescendentData) ;;;
  deleteService B serviceId ;;;
  ret tt.

(** The body of the [map] callback that creates one descendent.  It reads
    [descendent._type._id] before its [try] block: a member of which that
    cannot be read makes the callback throw, and nothing is requested for
    it. *)
Definition putFullService_descendent (serviceId : string)
    (descendent : Member) : Async B (option ServiceNextDescendent) :=
  match descendent with
  | NullMember =>
      throw (TypeError "Cannot read properties of null (reading '_type')")
  | WithoutType _type _ =>
      throw (TypeError ("Cannot read properties of " +:+ show_nullish _type
                          +:+ " (reading '_id')"))
  | WithType descendent =>
      let type := _type_id descendent in
      let descendentId := _id descendent in
      debugMessage
        ("ServiceOps.putFullService: descendentId=" +:+ descendentId) ;;;
      try_catch
        (result <- putServiceNextDescendent B serviceId type descendentId
                     descendent ;;
         ret (Some result))
        (fun error =>
           let message := response_message error in
           printMessage
             ("Put descendent '" +:+ descendentId +:+ "' of service '"
                +:+ serviceId +:+ "': " +:+ show message)
             "error" ;;;
           ret None)
  end.

(** [putFullService] (ServiceOps.ts 88-154).  The result is [None] where
    the function ends without a [return]. *)
Definition putFullService (serviceId : string) (fullServiceData : option loc)
    (clean : bool) : Async B (option AmServiceSkeleton) :=
  debugMessage ("ServiceOps.putFullService: start, serviceId=" +:+ serviceId) ;;;
  nextDescendents <-
    get_property "nextDescendents" fullServiceData nextDescendents ;;
  delete_property "nextDescendents" fullServiceData delete_nextDescendents ;;;
  delete_property "_rev" fullServiceData (delete_field "_rev") ;;;
  delete_property "enabled" fullServiceData (delete_field "enabled") ;;;
  (if clean then
     try_catch
       (debugMessage "ServiceOps.putFullService: clean" ;;;
        deleteFullService serviceId)
       (fun error =>
          if negb (status_is 404 error && message_is "Not Found" error)
          then
            let message := response_message error in
            printMessage
              ("Error deleting service '" +:+ serviceId
                 +:+ "' before import: " +:+ show message)
              "error"
          else ret tt)
   else ret tt) ;;;
  (* create service first *)
  payload <- dereference fullServiceData ;;
  result <- putService B serviceId payload ;;
  (* return fast if no next descendents supplied *)
  match nextDescendents with
  | None => throw (TypeError "Cannot read properties of undefined (reading 'length')")
  | Some nextDescendents =>
      if (length nextDescendents =? 0)%nat then
        debugMessage "ServiceOps.putFullService: end (w/o descendents)" ;;;
        ret (Some result)
      else
        (* now create next descendents *)
        promise_all
          (map (putFullService_descendent serviceId) nextDescendents) ;;;
        debugMessage "ServiceOps.putFullService: end (w/ descendents)" ;;;
        ret None
  end.

(** One turn of the [for] loop of [putFullServices]. *)
Definition putFullServices_entry (clean : bool)
    (results : list (option AmServiceSkeleton)) (entry : string * loc)
  : Async B (list (option AmServiceSkeleton)) :=
  let '(id, data) := entry in
  try_catch
    (result <- putFullService id (Some data) clean ;;
     printMessage ("Imported: " +:+ id) "info" ;;;
     ret (results ++ [result])%list)
    (fun error =>
       let message := response_message error in
       let detail := response_detail error in
       printMessage ("Import service '" +:+ id +:+ "': " +:+ show message)
                    "error" ;;;
       match detail with
       | Some d =>
           if truthy d
           then printMessage ("Details: " +:+ JSON_stringify d) "error"
           else ret tt
       | None => ret tt
       end ;;;
       ret results).

Fixpoint putFullServices_loop (serviceEntries : list (string * loc))
    (clean : bool) (results : list (option AmServiceSkeleton))
  : Async B (list (option AmServiceSkeleton)) :=
  match serviceEntries with
  | [] => ret results
  | entry :: serviceEntries =>
      results <- putFullServices_entry clean results entry ;;
      putFullServices_loop serviceEntries clean results
  end.

(** [putFullServices] (ServiceOps.ts 162-184) *)
Definition putFullServices (serviceEntries : list (string * loc))
    (clean : bool) : Async B (list (option AmServiceSkeleton)) :=
  debugMessage "ServiceOps.putFullServices: start" ;;;
  results <- putFullServices_loop serviceEntries clean [] ;;
  debugMessage "ServiceOps.putFullServices: end" ;;;
  ret results.

(** [importService] (ServiceOps.ts 291-301) *)
Definition importService (serviceId : string)
    (importData : ServiceExportInterface) (clean : bool)
  : Async B (option AmServiceSkeleton) :=
  debugMessage "ServiceOps.importService: start" ;;;
  match service importData with
  | None => throw (TypeError ("Cannot read properties of undefined (reading '"
                                +:+ serviceId +:+ "')"))
  | Some entries =>
      let serviceData := property serviceId entries in
      result <- putFullService serviceId serviceData clean ;;
      debugMessage "ServiceOps.importService: end" ;;;
      ret result
  end.

(** [Object.entries(obj)] *)
Definition Object_entries (obj : option (list (string * loc)))
  : Async B (list (string * loc)) :=
  match obj with
  | Some entries => ret entries
  | None => throw (TypeError "Cannot convert undefined or null to object")
  end.

(** [importServices] (ServiceOps.ts 307-328) *)
Definition importServices (importData : ServiceExportInterface)
    (clean : bool) : Async B (list (option AmServiceSkeleton)) :=
  debugMessage "ServiceOps.importServices: start" ;;;
  try_catch
    (serviceEntries <- Object_entries (service importData) ;;
     result <- putFullServices serviceEntries clean ;;
     debugMessage "ServiceOps.importServices: end" ;;;
     ret result)
    (fun error =>
       let message := response_message error in
       let detail := response_detail error in
       printMessage ("Unable to import services: error: " +:+ show message)
                    "error" ;;;
       match detail with
       | Some d =>
           if truthy d
           then printMessage ("Details: " +:+ JSON_stringify d) "error"
           else ret tt
       | None => ret tt
       end ;;;
       throw error).

End ServiceOps.

(** ** ScriptOps.ts *)

(** The status object [{ error, name }] of [createOrUpdateScript]. *)
Record ScriptStatus := mkStatus {
  error : bool;
  status_name : string
}.

Definition set_name (newName : string) (data : ScriptSkeleton) : ScriptSkeleton :=
  {| script_id := script_id data; name := newName; script := script data |}.

Section ScriptOps.
Context (B : Backend).
(** [applyNameCollisionPolicy] of [utils/OpsUtils], which is not among the
    sources, is a parameter. *)
Context (applyNameCollisionPolicy : string -> string).

(** [createOrUpdateScript] (ServiceOps.ts 466-490).  The function calls itself
    after every conflict, so the embedding takes [fuel], the number of
    calls it may make, and answers [None] when that is used up.  [data] is
    assigned to (its [name]); the object as the call leaves it is returned
    next to the status. *)
Fixpoint createOrUpdateScript (fuel : nat) (id : string)
    (data : ScriptSkeleton)
  : Async B (option (ScriptStatus * ScriptSkeleton)) :=
  match fuel with
  | O => ret None
  | S fuel =>
      try_catch
        (putScript B id data ;;;
         ret (Some ({| error := false; status_name := name data |}, data)))
        (fun e =>
           if status_is 409 e then
             printMessage
               ("createOrUpdateScript WARNING: script with name "
                  +:+ name data
                  +:+ " already exists, using renaming policy... <name> => <name - imported (n)>")
               "warn" ;;;
             let newName := applyNameCollisionPolicy (name data) in
             printMessage ("Trying to save script as " +:+ newName) "warn" ;;;
             let data := set_name newName data in
             retried <- createOrUpdateScript fuel id data ;;
             match retried with
             | None => ret None
             | Some (_, data) =>
                 ret (Some ({| error := false; status_name := name data |},
                            data))
             end
           else
             printMessage
               ("createOrUpdateScript ERROR: put script error, script "
                  +:+ id +:+ " - " +:+ error_message e)
               "error" ;;;
             ret (Some ({| error := true; status_name := name data |}, data)))
  end.

End ScriptOps.

(** ** The content transform of scripts *)

Definition newline : ascii := ascii_of_nat 10.

(** Modelled from the spec: [convertBase64TextToArray] and
    [convertTextArrayToBase64] of [utils/ExportImportUtils] are not among the
    sources.  The spec takes the blob as already decoded text, a sequence of
    bytes, and has export cut it into its lines and import join the lines
    again; an empty blob has no lines. *)
Fixpoint split_lines (text : string) : list string :=
  match text with
  | EmptyString => [EmptyString]
  | String c text =>
      if Ascii.eqb c newline then EmptyString :: split_lines text
      else match split_lines text with
           | line :: more => String c line :: more
           | [] => [String c EmptyString]
           end
  end.

(** Modelled from the spec: the export direction of the content transform
    (see [split_lines]). *)
Definition convertBase64TextToArray (blob : string) : list string :=
  match blob with
  | EmptyString => []
  | _ => split_lines blob
  end.

(** Modelled from the spec: the import direction of the content transform
    (see [split_lines]). *)
Definition convertTextArrayToBase64 (textArray : list string) : string :=
  String.concat (String newline EmptyString) textArray.

(** ** A concrete backend

    A small backend on which the functions can be run.  Its world counts
    the requests it has answered.  It knows the services [svc1] (with the
    descendents [c1] and [c2]), [svc2] (whose fetch meets the capability
    gap) and [svc3] (whose fetch fails); deleting [c1] fails, listing the
    descendents of [ghost] is answered with 404, writing the service [bad] is
    refused, and the first two script writes conflict. *)
Module Demo.

Definition c1 : ServiceNextDescendent :=
  {| _id := "c1"; _type_id := "a"; body := [("k", JNum 1)] |}.
Definition c2 : ServiceNextDescendent :=
  {| _id := "c2"; _type_id := "b"; body := [] |}.

Definition svc (id : string) : AmServiceSkeleton :=
  {| service_id := id; service_type_id := id;
     fields := {[ "_rev" := JStr "7"; "enabled" := JBool true;
                  "timeout" := JNum 30 ]} |}.

Definition answer {A} (w : nat) (r : Settled A) : nat * Settled A :=
  (S w, r).

Definition backend : Backend :=
  {| World := nat;
     api_getListOfServices := fun w =>
       answer w (Fulfilled [svc "svc1"; svc "svc2"; svc "svc3"]);
     api_getService := fun id w =>
       answer w
         (if String.eqb id "svc2"
          then Rejected (HttpError 403 (Some capability_gap))
          else if String.eqb id "svc3"
          then Rejected (HttpError 500 (Some "Internal Server Error"))
          else Fulfilled (svc id));
     api_getServiceDescendents := fun id w =>
       answer w
         (if String.eqb id "svc1" then Fulfilled [c1; c2]
          else if String.eqb id "ghost"
          then Rejected (HttpError 404 (Some "Not Found"))
          else Fulfilled []);
     api_putService := fun id payload w =>
       answer w
         (if String.eqb id "bad"
          then Rejected (HttpError 400 (Some "Bad Request"))
          else Fulfilled (skeleton payload));
     api_putServiceNextDescendent := fun _ _ _ payload w =>
       answer w (Fulfilled payload);
     api_deleteService := fun id w => answer w (Fulfilled (svc id));
     api_deleteServiceNextDescendent := fun _ type id w =>
       answer w
         (if String.eqb id "c1"
          then Rejected (HttpError 500 (Some "Internal Server Error"))
          else Fulfilled {| _id := id; _type_id := type; body := [] |});
     api_putScript := fun _ payload w =>
       answer w
         (if (w <? 2)%nat
          then Rejected (HttpError 409 (Some "Conflict"))
          else Fulfilled payload);
     race := fun _ => 0%nat |}.

(** An envelope entry as export wrote it. *)
Definition entry (descendents : option (list ServiceNextDescendent))
  : FullService :=
  {| skeleton := svc "svc1";
     nextDescendents := map WithType <$> descendents |}.

(** An envelope entry that was edited by hand: its second descendent has
    lost its [_type]. *)
Definition edited : FullService :=
  {| skeleton := svc "svc1";
     nextDescendents :=
       Some [WithType c1; WithoutType JsUndefined [("_id", JStr "c2")]] |}.

Definition initial (h : gmap loc FullService) : State backend :=
  mkState backend 0%nat h [] [] [].

Definition envelope : ServiceExportInterface :=
  {| meta := []; service := Some [("svc1", 1%positive); ("bad", 2%positive);
                                  ("svc4", 3%positive)] |}.

Definition objects : gmap loc FullService :=
  {[ 1%positive := entry (Some [c1; c2]);
     2%positive := entry (Some []);
     3%positive := entry (Some []) ]}.

Definition myScript : ScriptSkeleton :=
  {| script_id := "id1"; name := "myScript"; script := "Y29kZQ==" |}.

(** A resolver to run [createOrUpdateScript] with: it marks the name. *)
Definition policy (n : string) : string := n +:+ "'".

End Demo.


(** ** Vocabulary of the statements *)

(** The request that deletes one descendent of [serviceId]. *)
Definition child_delete (serviceId : string) (d : ServiceNextDescendent)
  : Request :=
  DeleteServiceNextDescendent serviceId (_type_id d) (_id d).

(** The request that creates one descendent of [serviceId]. *)
Definition child_put (serviceId : string) (d : ServiceNextDescendent)
  : Request :=
  PutServiceNextDescendent serviceId (_type_id d) (_id d) d.

Definition is_child_put (r : Request) : bool :=
  match r with
  | PutServiceNextDescendent _ _ _ _ => true
  | _ => false
  end.

Definition is_put (r : Request) : bool :=
  match r with
  | PutServiceNextDescendent _ _ _ _ | PutService _ _ => true
  | _ => false
  end.

(** The entry as [putFullService] leaves it behind its reference, which is
    also the object it sends as the parent. *)
Definition stripped (o : FullService) : FullService :=
  delete_field "enabled" (delete_field "_rev" (delete_nextDescendents o)).

(** What the [catch] around the pre-clean prints, given how the pre-clean
    settled. *)
Definition preclean_report (serviceId : string) (r : Settled unit)
  : list (string * string) :=
  match r with
  | Fulfilled _ => []
  | Rejected error =>
      if status_is 404 error && message_is "Not Found" error then []
      else [("Error deleting service '" +:+ serviceId
               +:+ "' before import: " +:+ show (response_message error),
             "error")]
  end.

(** The descendent that a member is, when its [_type._id] can be read. *)
Definition typed (m : Member) : option ServiceNextDescendent :=
  match m with
  | WithType d => Some d
  | NullMember | WithoutType _ _ => None
  end.

Definition has_type (m : Member) : bool :=
  match m with
  | WithType _ => true
  | NullMember | WithoutType _ _ => false
  end.

(** The error that reading [_type._id] of a member throws, if it does. *)
Definition unreadable (m : Member) : option JsError :=
  match m with
  | WithType _ => None
  | NullMember =>
      Some (TypeError "Cannot read properties of null (reading '_type')")
  | WithoutType _type _ =>
      Some (TypeError ("Cannot read properties of " +:+ show_nullish _type
                         +:+ " (reading '_id')"))
  end.

(** The line printed when the creation of the descendent [d] fails. *)
Definition descendent_report (serviceId : string) (d : ServiceNextDescendent)
    (error : JsError) : string * string :=
  ("Put descendent '" +:+ _id d +:+ "' of service '" +:+ serviceId +:+ "': "
     +:+ show (response_message error),
   "error").

(** The report of a descendent that could not be created, if it could
    not. *)
Definition descendent_failure (serviceId : string)
    (p : ServiceNextDescendent * Settled Response) : option (string * string) :=
  match snd p with
  | Fulfilled _ => None
  | Rejected error => Some (descendent_report serviceId (fst p) error)
  end.

Section ServiceVocabulary.
Context (B : Backend) (JSON_stringify : jsval -> string).

(** The state in which [putFullService] has read [nextDescendents] and has
    deleted the three properties from the object behind [l]. *)
Definition entered (serviceId : string) (l : loc) (s : State B) : State B :=
  {| world := world s;
     heap := alter (delete_field "enabled") l
               (alter (delete_field "_rev") l
                  (alter delete_nextDescendents l (heap s)));
     exchanges := exchanges s;
     printed := printed s;
     debugged := (debugged s
                    ++ ["ServiceOps.putFullService: start, serviceId="
                          +:+ serviceId])%list |}.

(** The state in which the pre-clean of [putFullService] calls
    [deleteFullService]. *)
Definition at_preclean (serviceId : string) (l : loc) (s : State B) : State B :=
  fst (debugMessage "ServiceOps.putFullService: clean" (entered serviceId l s)).

(** The [if (clean)] block of [putFullService]. *)
Definition putFullService_clean (serviceId : string) (clean : bool)
  : Async B unit :=
  if clean then
    try_catch
      (debugMessage "ServiceOps.putFullService: clean" ;;;
       deleteFullService B serviceId)
      (fun error =>
         if negb (status_is 404 error && message_is "Not Found" error)
         then
           let message := response_message error in
           printMessage
             ("Error deleting service '" +:+ serviceId
                +:+ "' before import: " +:+ show message)
             "error"
         else ret tt)
  else ret tt.

(** [putFullService] from the creation of the parent on. *)
Definition putFullService_create (serviceId : string) (payload : FullService)
    (nextDescendents : option (list Member))
  : Async B (option AmServiceSkeleton) :=
  result <- putService B serviceId payload ;;
  match nextDescendents with
  | None => throw (TypeError "Cannot read properties of undefined (reading 'length')")
  | Some nextDescendents =>
      if (length nextDescendents =? 0)%nat then
        debugMessage "ServiceOps.putFullService: end (w/o descendents)" ;;;
        ret (Some result)
      else
        promise_all
          (map (putFullService_descendent B serviceId) nextDescendents) ;;;
        debugMessage "ServiceOps.putFullService: end (w/ descendents)" ;;;
        ret None
  end.

(** What the creation of the descendents makes of the import: it ends
    without a result when [_type._id] could be read of every member, and
    rejects with the error of one of the other members otherwise. *)
Definition members_outcome (nextDescendents : list Member)
  : Settled (option AmServiceSkeleton) :=
  match omap unreadable nextDescendents with
  | [] => Fulfilled None
  | e :: es => Rejected (first_rejection B e es)
  end.


(** What an import of the entry [o] resolves to, if it does. *)
Definition resolves_as (serviceId : string) (o : FullService)
    (out : State B * Settled (option AmServiceSkeleton)) : Prop :=
  forall v, snd out = Fulfilled v ->
    match nextDescendents o with
    | Some [] =>
        exists parent,
          v = Some parent /\
          In (PutService serviceId (stripped o), Fulfilled (Service parent))
             (exchanges (fst out))
    | Some (_ :: _) => v = None
    | None => False
    end.

(** What C9 says about an import of the entry [o] that was begun in [s] and
    ended as [out]: the parent was written, and the way that write settled
    and the descendents of the entry decide what the import resolves to. *)
Definition resolves_by_descendents (serviceId : string) (o : FullService)
    (s : State B) (out : State B * Settled (option AmServiceSkeleton)) : Prop :=
  exists before res children,
    exchanges (fst out) =
      (exchanges s ++ before
         ++ (PutService serviceId (stripped o), res) :: children)%list /\
    Forall (fun x : Exchange => is_put (fst x) = false) before /\
    Forall (fun x : Exchange => is_child_put (fst x) = true) children /\
    match res with
    | Rejected error => snd out = Rejected error
    | Fulfilled answer =>
        exists parent,
          answer = Service parent /\
          match nextDescendents o with
          | None => is_fulfilled (snd out) = false
          | Some [] => snd out = Fulfilled (Some parent)
          | Some (d :: ds) =>
              if forallb has_type (d :: ds)
              then snd out = Fulfilled None
              else exists error,
                     snd out = Rejected error /\
                     In (Some error) (map unreadable (d :: ds))
          end
    end.

End ServiceVocabulary.

(** [error] has the signature of the capability gap. *)
Definition is_capability_gap (error : JsError) : bool :=
  status_is 403 error && message_is capability_gap error.

(** The entry of the result list that the fetch of one item yields. *)
Definition succeeded_entry
    (out : Settled (AmServiceSkeleton * list ServiceNextDescendent))
  : option FullService :=
  match out with
  | Fulfilled (service, nextDescendents) =>
      Some {| skeleton := service;
              nextDescendents := Some (map WithType nextDescendents) |}
  | Rejected _ => None
  end.

(** The failure that the fetch of one item is reported with. *)
Definition failure_entry (listItem : AmServiceSkeleton)
    (out : Settled (AmServiceSkeleton * list ServiceNextDescendent))
  : option (string * string) :=
  match out with
  | Fulfilled _ => None
  | Rejected error =>
      if is_capability_gap error then None
      else Some ("Unable to retrieve data for " +:+ service_id listItem
                   +:+ " with error: " +:+ show (response_message error),
                 "error")
  end.

Section ExportVocabulary.
Context (B : Backend).

(** How the fetches of the items of a batch settle, the backend answering
    the requests in the order in which they are issued, from [w] on. *)
Fixpoint fetch_outcomes (serviceList : list AmServiceSkeleton) (w : World B)
  : list (Settled (AmServiceSkeleton * list ServiceNextDescendent)) :=
  match serviceList with
  | [] => []
  | listItem :: serviceList =>
      let '(w1, r1) := api_getService B (service_id listItem) w in
      let '(w2, r2) := api_getServiceDescendents B (service_id listItem) w1 in
      settle_both B r1 r2 :: fetch_outcomes serviceList w2
  end.

End ExportVocabulary.


Section ScriptVocabulary.
Context (B : Backend) (applyNameCollisionPolicy : string -> string).

(** [data] after the resolver was applied to its name [k] times. *)
Fixpoint renamed (k : nat) (data : ScriptSkeleton) : ScriptSkeleton :=
  match k with
  | O => data
  | S k => renamed k (set_name (applyNameCollisionPolicy (name data)) data)
  end.

(** From the world [w] on, the backend answers the writes of the script
    under its first [k] names with a conflict (409), and the write under the
    next name with something else. *)
Fixpoint conflicts (k : nat) (id : string) (data : ScriptSkeleton)
    (w : World B) : bool :=
  match api_putScript B id data w, k with
  | (_, Fulfilled _), O => true
  | (_, Fulfilled _), S _ => false
  | (_, Rejected e), O => negb (status_is 409 e)
  | (w', Rejected e), S k =>
      status_is 409 e
      && conflicts k id (set_name (applyNameCollisionPolicy (name data)) data) w'
  end.

End ScriptVocabulary.

(** ** ServiceOps.ts, the other operations *)

(** The envelope as export builds it: [meta] and, under [service], the
    exported objects themselves, by key. *)
Record ServiceExport := mkServiceExport {
  export_meta : gmap string jsval;
  export_service : gmap string FullService
}.

(** [createServiceExportTemplate] (ServiceOps.ts 23-28) *)
Definition createServiceExportTemplate : ServiceExport :=
  {| export_meta := ∅; export_service := ∅ |}.

(** [exportData.service[key] = entry] *)
Definition set_service (key : string) (entry : FullService)
    (exportData : ServiceExport) : ServiceExport :=
  {| export_meta := export_meta exportData;
     export_service := <[key := entry]> (export_service exportData) |}.

Section ServiceExportOps.
Context (B : Backend).

(** [getListOfServices] (ServiceOps.ts 33-38) *)
Definition getListOfServices : Async B (list AmServiceSkeleton) :=
  debugMessage "ServiceOps.getListOfServices: start" ;;;
  services <- _getListOfServices B ;;
  debugMessage "ServiceOps.getListOfServices: end" ;;;
  ret services.

(** [exportService] (ServiceOps.ts 247-262).  The local [exportData] is
    what the [try] block leaves of it. *)
Definition exportService (serviceId : string) : Async B ServiceExport :=
  debugMessage "ServiceOps.exportService: start" ;;;
  let exportData := createServiceExportTemplate in
  exportData <-
    try_catch
      (service <- getService B serviceId ;;
       nextDescendents <- getServiceDescendents B serviceId ;;
       let service :=
         {| skeleton := service;
            nextDescendents := Some (map WithType nextDescendents) |} in
       ret (set_service serviceId service exportData))
      (fun error =>
         let message := response_message error in
         printMessage
           ("Export service '" +:+ serviceId +:+ "': " +:+ show message)
           "error" ;;;
         ret exportData) ;;
  debugMessage "ServiceOps.exportService: end" ;;;
  ret exportData.



End ServiceExportOps.


(** The two requests with which [getFullServices] fetches one item. *)
Definition fetch_requests (listItem : AmServiceSkeleton) : list Request :=
  [GetService (service_id listItem);
   GetServiceDescendents (service_id listItem)].

Section ScriptVocabularyMore.
Context (B : Backend) (applyNameCollisionPolicy : string -> string).

(** From the world [w] on, the backend answers the writes of the script
    under its first [n] names with a conflict (409). *)
Fixpoint conflicts_throughout (n : nat) (id : string) (data : ScriptSkeleton)
    (w : World B) : bool :=
  match n with
  | O => true
  | S n =>
      match api_putScript B id data w with
      | (_, Fulfilled _) => false
      | (w', Rejected e) =>
          status_is 409 e
          && conflicts_throughout n id
               (set_name (applyNameCollisionPolicy (name data)) data) w'
      end
  end.

End ScriptVocabularyMore.

(** ** Operations that report through the console and through files

    [VariablesOps.ts] and the script exports report what they do through
    the progress indicator and [saveToFile], sinks that the state of
    [Async] does not record.  A [Stage] records them: the backend, the
    requests issued to it, in order, and what was handed to the console and
    to [saveToFile], in order. *)

Inductive Output (D : Type) :=
| Printed (message : string) (type : option string)
| ProgressCreated (total : option nat) (message : string) (type : option string)
| ProgressUpdated (message : string)
| ProgressStopped (message : string) (status : option string)
| Saved (type : string) (data : D) (identifier filename : string).
Arguments Printed {D} message type.
Arguments ProgressCreated {D} total message type.
Arguments ProgressUpdated {D} message.
Arguments ProgressStopped {D} message status.
Arguments Saved {D} type data identifier filename.

Definition is_saved {D} (o : Output D) : bool :=
  match o with Saved _ _ _ _ => true | _ => false end.

Definition is_stopped {D} (o : Output D) : bool :=
  match o with ProgressStopped _ _ => true | _ => false end.

Record Stage (W Rq D : Type) := mkStage {
  remote : W;
  issued : list Rq;
  output : list (Output D)
}.
Arguments mkStage {W Rq D} remote issued output.
Arguments remote {W Rq D} s.
Arguments issued {W Rq D} s.
Arguments output {W Rq D} s.

Definition Task (W Rq D A : Type) : Type :=
  Stage W Rq D -> Stage W Rq D * Settled A.

Section Task.
Context {W Rq D : Type}.

Definition task_ret {A} (a : A) : Task W Rq D A := fun s => (s, Fulfilled a).

Definition task_throw {A} (e : JsError) : Task W Rq D A :=
  fun s => (s, Rejected e).

Definition task_bind {A C} (m : Task W Rq D A) (k : A -> Task W Rq D C)
  : Task W Rq D C :=
  fun s =>
    match m s with
    | (s', Fulfilled a) => k a s'
    | (s', Rejected e) => (s', Rejected e)
    end.

(** [try { m } catch (error) { h error }] *)
Definition task_try {A} (m : Task W Rq D A) (h : JsError -> Task W Rq D A)
  : Task W Rq D A :=
  fun s =>
    match m s with
    | (s', Fulfilled a) => (s', Fulfilled a)
    | (s', Rejected e) => h e s'
    end.

(** A request to the backend, awaited. *)
Definition call {A} (rq : Rq) (h : W -> W * Settled A) : Task W Rq D A :=
  fun s =>
    let '(w', res) := h (remote s) in
    ({| remote := w'; issued := issued s ++ [rq]; output := output s |}, res).

(** A call of one of the console functions or of [saveToFile]. *)
Definition emit (o : Output D) : Task W Rq D unit :=
  fun s =>
    ({| remote := remote s; issued := issued s; output := output s ++ [o] |},
     Fulfilled tt).

(** A value that may have thrown while it was computed. *)
Definition settled {A} (r : Settled A) : Task W Rq D A := fun s => (s, r).

End Task.

Notation "x <~ m ;; k" := (task_bind m (fun x => k))
  (at level 62, m at next level, right associativity, only parsing).
Notation "m ;;> k" := (task_bind m (fun _ => k))
  (at level 62, right associativity, only parsing).

(** ** VariablesOps.ts *)

(** A variable, of which the operations read the [_id]. *)
Record VariableSkeleton := mkVariable {
  variable_id : string;
  variable_properties : list (string * jsval)
}.

Inductive VariableRequest :=
| GetVariables
| PutVariable (variableId value description : string)
| SetVariableDescription (variableId description : string)
| DeleteVariable (variableId : string).

(** [api/VariablesApi], as a state machine. *)
Record VariablesApi := mkVariablesApi {
  VariablesWorld : Type;
  api_getVariables :
    VariablesWorld -> VariablesWorld * Settled (list VariableSkeleton);
  api_putVariable :
    string -> string -> string ->
    VariablesWorld -> VariablesWorld * Settled VariableSkeleton;
  api_setVariableDescription :
    string -> string -> VariablesWorld -> VariablesWorld * Settled VariableSkeleton;
  api_deleteVariable :
    string -> VariablesWorld -> VariablesWorld * Settled VariableSkeleton
}.

Section VariablesOps.
Context (V : VariablesApi).
(** [error.response.data.code]: the [code] of the data of a response, which
    [ErrorData] does not record, is a parameter. *)
Context (data_code : ErrorData -> option string).

Definition VariablesTask (A : Type) : Type :=
  Task (VariablesWorld V) VariableRequest unit A.

(** [`Error: ${error.response.data.code} - ${error.response.data.message}`],
    which throws when [error] has no [response], or that no [data]. *)
Definition error_summary (error : JsError) : Settled string :=
  match response error with
  | None =>
      Rejected (TypeError "Cannot read properties of undefined (reading 'data')")
  | Some r =>
      match data r with
      | None =>
          Rejected
            (TypeError "Cannot read properties of undefined (reading 'code')")
      | Some d =>
          Fulfilled ("Error: " +:+ show (data_code d) +:+ " - "
                       +:+ show (message d))
      end
  end.

Definition getVariables : VariablesTask (list VariableSkeleton) :=
  call GetVariables (api_getVariables V).

Definition putVariable (variableId value description : string)
  : VariablesTask VariableSkeleton :=
  call (PutVariable variableId value description)
       (api_putVariable V variableId value description).

Definition setVariableDescription (variableId description : string)
  : VariablesTask VariableSkeleton :=
  call (SetVariableDescription variableId description)
       (api_setVariableDescription V variableId description).

Definition deleteVariable (variableId : string) : VariablesTask VariableSkeleton :=
  call (DeleteVariable variableId) (api_deleteVariable V variableId).

(** [createVariable] (VariablesOps.ts 67-82) *)
Definition createVariable (variableId value description : string)
  : VariablesTask unit :=
  emit (ProgressCreated None ("Creating variable " +:+ variableId +:+ "...")
          (Some "indeterminate")) ;;>
  task_try
    (putVariable variableId value description ;;>
     emit (ProgressStopped ("Created variable " +:+ variableId) (Some "success")))
    (fun error =>
       summary <~ settled (error_summary error) ;;
       emit (ProgressStopped summary (Some "fail"))).

(** [updateVariable] (VariablesOps.ts 90-105) *)
Definition updateVariable (variableId value description : string)
  : VariablesTask unit :=
  emit (ProgressCreated None ("Updating variable " +:+ variableId +:+ "...")
          (Some "indeterminate")) ;;>
  task_try
    (putVariable variableId value description ;;>
     emit (ProgressStopped ("Updated variable " +:+ variableId) (Some "success")))
    (fun error =>
       summary <~ settled (error_summary error) ;;
       emit (ProgressStopped summary (Some "fail"))).

(** [setDescriptionOfVariable] (VariablesOps.ts 112-130) *)
Definition setDescriptionOfVariable (variableId description : string)
  : VariablesTask unit :=
  emit (ProgressCreated None
          ("Setting description of variable " +:+ variableId +:+ "...")
          (Some "indeterminate")) ;;>
  task_try
    (setVariableDescription variableId description ;;>
     emit (ProgressStopped ("Set description of variable " +:+ variableId)
             (Some "success")))
    (fun error =>
       summary <~ settled (error_summary error) ;;
       emit (ProgressStopped summary (Some "fail"))).

(** [deleteVariableCmd] (VariablesOps.ts 136-151) *)
Definition deleteVariableCmd (variableId : string) : VariablesTask unit :=
  emit (ProgressCreated None ("Deleting variable " +:+ variableId +:+ "...")
          (Some "indeterminate")) ;;>
  task_try
    (deleteVariable variableId ;;>
     emit (ProgressStopped ("Deleted variable " +:+ variableId) (Some "success")))
    (fun error =>
       summary <~ settled (error_summary error) ;;
       emit (ProgressStopped summary (Some "fail"))).

(** The [for] loop of [deleteVariablesCmd]. *)
Fixpoint deleteVariablesCmd_loop (variables : list VariableSkeleton)
  : VariablesTask unit :=
  match variables with
  | [] => task_ret tt
  | variable :: variables =>
      task_try
        (deleteVariable (variable_id variable) ;;>
         emit (ProgressUpdated ("Deleted variable " +:+ variable_id variable)))
        (fun error =>
           summary <~ settled (error_summary error) ;;
           emit (Printed summary (Some "error"))) ;;>
      deleteVariablesCmd_loop variables
  end.

(** [deleteVariablesCmd] (VariablesOps.ts 156-179) *)
Definition deleteVariablesCmd : VariablesTask unit :=
  task_try
    (variables <~ getVariables ;;
     emit (ProgressCreated (Some (length variables)) "Deleting variable..."
             None) ;;>
     deleteVariablesCmd_loop variables ;;>
     emit (ProgressStopped "Variables deleted." None))
    (fun error =>
       summary <~ settled (error_summary error) ;;
       emit (Printed summary (Some "error"))).

(** *** Vocabulary *)

(** The failure can be summarised: it carries a response with data. *)
Definition has_data (error : JsError) : bool :=
  match response error with
  | Some {| data := Some _ |} => true
  | _ => false
  end.

(** The request was fulfilled, or failed in a way that can be summarised. *)
Definition survivable {A} (r : Settled A) : bool :=
  match r with
  | Fulfilled _ => true
  | Rejected error => has_data error
  end.

(** How the deletions of the variables are answered, one after the other,
    from [w] on. *)
Fixpoint deletions (variables : list VariableSkeleton) (w : VariablesWorld V)
  : list (Settled VariableSkeleton) :=
  match variables with
  | [] => []
  | variable :: variables =>
      let '(w', r) := api_deleteVariable V (variable_id variable) w in
      r :: deletions variables w'
  end.

(** What the loop of [deleteVariablesCmd] hands to the console for one
    variable, given how its deletion was answered. *)
Definition deletion_report (variable : VariableSkeleton) (r : Settled VariableSkeleton)
  : list (Output unit) :=
  match r with
  | Fulfilled _ =>
      [ProgressUpdated ("Deleted variable " +:+ variable_id variable)]
  | Rejected error =>
      match error_summary error with
      | Fulfilled summary => [Printed summary (Some "error")]
      | Rejected _ => []
      end
  end.

End VariablesOps.

Section VariablesVocabulary.
Context (V : VariablesApi) (data_code : ErrorData -> option string).

(** How one of the commands on a single variable reports: it announces
    itself with [start], issues the request [rq], and, given the [answer],
    stops the progress indicator with [done] or with the summary of the
    failure, or, when the failure cannot be summarised, throws and leaves
    the progress indicator running. *)
Definition reports_as (start done : string) (rq : VariableRequest)
    (answer : Settled VariableSkeleton)
    (s : Stage (VariablesWorld V) VariableRequest unit)
    (out : Stage (VariablesWorld V) VariableRequest unit * Settled unit)
  : Prop :=
  issued (fst out) = (issued s ++ [rq])%list /\
  exists stopped,
    output (fst out) =
      (output s
         ++ ProgressCreated None start (Some "indeterminate") :: stopped)%list /\
    match answer with
    | Fulfilled _ =>
        snd out = Fulfilled tt /\
        stopped = [ProgressStopped done (Some "success")]
    | Rejected error =>
        match response error with
        | Some {| data := Some d |} =>
            snd out = Fulfilled tt /\
            stopped =
              [ProgressStopped
                 ("Error: " +:+ show (data_code d) +:+ " - "
                    +:+ show (message d))
                 (Some "fail")]
        | _ =>
            stopped = [] /\
            exists thrown,
              snd out = Rejected thrown /\ error_name thrown = "TypeError"
        end
    end.

(** The number of deletions from the first on that were fulfilled or failed
    in a way that can be summarised. *)
Fixpoint survived {A} (rs : list (Settled A)) : nat :=
  match rs with
  | [] => O
  | r :: rs => if survivable r then S (survived rs) else O
  end.

End VariablesVocabulary.

(** ** The script exports *)

(** A script as it is saved: its [script] is the array of its lines. *)
Record ScriptExport := mkScriptExport {
  exported_id : string;
  exported_name : string;
  exported_script : list string
}.

Inductive ScriptRequest :=
| GetScripts
| GetScriptByName (scriptName : string).

(** The reading side of [api/ScriptApi], as a state machine; the answers
    stand for their [result]. *)
Record ScriptsApi := mkScriptsApi {
  ScriptsWorld : Type;
  api_getScripts : ScriptsWorld -> ScriptsWorld * Settled (list ScriptSkeleton);
  api_getScriptByName :
    string -> ScriptsWorld -> ScriptsWorld * Settled (list ScriptSkeleton)
}.

(** [if (file)]: a file name was given, and it is not the empty string. *)
Definition given (file : option string) : bool :=
  match file with
  | Some f => negb (String.eqb f "")
  | None => false
  end.

Section ScriptExports.
Context (S : ScriptsApi).
(** [getTypedFilename] and [convertBase64TextToArray] of
    [utils/ExportImportUtils], which is not among the sources, and the realm
    of the session ([storage.session.getRealm()]) are parameters. *)
Context (getTypedFilename : string -> string -> string).
Context (convertBase64TextToArray : string -> list string).
Context (realm : string).

Definition ScriptsTask (A : Type) : Type :=
  Task (ScriptsWorld S) ScriptRequest (list ScriptExport) A.

Definition getScripts : ScriptsTask (list ScriptSkeleton) :=
  call GetScripts (api_getScripts S).

Definition getScriptByName (scriptName : string)
  : ScriptsTask (list ScriptSkeleton) :=
  call (GetScriptByName scriptName) (api_getScriptByName S scriptName).

(** [element.script = convertBase64TextToArray(element.script)] *)
Definition as_text_array (element : ScriptSkeleton) : ScriptExport :=
  {| exported_id := script_id element;
     exported_name := name element;
     exported_script := convertBase64TextToArray (script element) |}.

(** [exportScriptByName] (ServiceOps.ts 392-407) *)
Definition exportScriptByName (scriptName : string) (file : option string)
  : ScriptsTask unit :=
  let fileName := getTypedFilename scriptName "script" in
  let fileName := if given file then default fileName file else fileName in
  scriptData <~ getScriptByName scriptName ;;
  (if (1 <? length scriptData)%nat
   then emit (Printed ("Multiple scripts with name " +:+ scriptName
                         +:+ " found...") (Some "error"))
   else task_ret tt) ;;>
  let scriptData := map as_text_array scriptData in
  emit (Saved "script" scriptData "_id" fileName).

(** The [for] loop of [exportScriptsToFile]. *)
Fixpoint exportScriptsToFile_loop (scriptList : list ScriptSkeleton)
    (allScriptsData : list ScriptExport) : ScriptsTask (list ScriptExport) :=
  match scriptList with
  | [] => task_ret allScriptsData
  | item :: scriptList =>
      emit (ProgressUpdated ("Reading script " +:+ name item)) ;;>
      scriptData <~ getScriptByName (name item) ;;
      exportScriptsToFile_loop scriptList
        (allScriptsData ++ map as_text_array scriptData)
  end.

(** [exportScriptsToFile] (ServiceOps.ts 413-437) *)
Definition exportScriptsToFile (file : option string) : ScriptsTask unit :=
  let fileName := getTypedFilename ("all" +:+ realm +:+ "Scripts") "script" in
  let fileName := if given file then default fileName file else fileName in
  scriptList <~ getScripts ;;
  emit (ProgressCreated (Some (length scriptList)) "Exporting script" None) ;;>
  allScriptsData <~ exportScriptsToFile_loop scriptList [] ;;
  emit (ProgressStopped "Done" None) ;;>
  emit (Saved "script" allScriptsData "_id" fileName).

(** The [for] loop of [exportScriptsToFiles]. *)
Fixpoint exportScriptsToFiles_loop (scriptList : list ScriptSkeleton)
  : ScriptsTask unit :=
  match scriptList with
  | [] => task_ret tt
  | item :: scriptList =>
      emit (ProgressUpdated ("Reading script " +:+ name item)) ;;>
      scriptData <~ getScriptByName (name item) ;;
      let scriptData := map as_text_array scriptData in
      let fileName := getTypedFilename (name item) "script" in
      emit (Saved "script" scriptData "_id" fileName) ;;>
      exportScriptsToFiles_loop scriptList
  end.

(** [exportScriptsToFiles] (ServiceOps.ts 442-458) *)
Definition exportScriptsToFiles : ScriptsTask unit :=
  scriptList <~ getScripts ;;
  emit (ProgressCreated (Some (length scriptList)) "Exporting script" None) ;;>
  exportScriptsToFiles_loop scriptList ;;>
  emit (ProgressStopped "Done" None).

(** *** Vocabulary *)

(** How the scripts of the list are answered when they are read by name,
    one after the other, from [w] on. *)
Fixpoint readings (scriptList : list ScriptSkeleton) (w : ScriptsWorld S)
  : list (Settled (list ScriptSkeleton)) :=
  match scriptList with
  | [] => []
  | item :: scriptList =>
      let '(w', r) := api_getScriptByName S (name item) w in
      r :: readings scriptList w'
  end.

(** The file that [exportScriptsToFiles] writes for [item]. *)
Definition file_of (item : ScriptSkeleton) (scriptData : list ScriptSkeleton)
  : Output (list ScriptExport) :=
  Saved "script" (map as_text_array scriptData) "_id"
        (getTypedFilename (name item) "script").

End ScriptExports.

(** The answers before the first failure. *)
Fixpoint leading {A} (rs : list (Settled A)) : list A :=
  match rs with
  | Fulfilled a :: rs => a :: leading rs
  | _ => []
  end.

(** The first failure among the answers. *)
Fixpoint first_failure {A} (rs : list (Settled A)) : option JsError :=
  match rs with
  | [] => None
  | Fulfilled _ :: rs => first_failure rs
  | Rejected error :: _ => Some error
  end.

(** The requests up to and including the first failure. *)
Definition attempted {A X} (rs : list (Settled A)) (xs : list X) : list X :=
  match first_failure rs with
  | Some _ => take (S (length (leading rs))) xs
  | None => xs
  end.

(** ** Concrete backends for variables and scripts *)
Module DemoCli.

(** The world is the list of the variables there are.  The variable [locked]
    cannot be deleted (403, with data); deleting [gone] fails without a
    response. *)
Definition variables : VariablesApi :=
  {| VariablesWorld := list VariableSkeleton;
     api_getVariables := fun w => (w, Fulfilled w);
     api_putVariable := fun id _ _ w =>
       if String.eqb id "esv-bad"
       then (w, Rejected (mkJsError "Error" "socket hang up" None))
       else ((w ++ [mkVariable id []])%list, Fulfilled (mkVariable id []));
     api_setVariableDescription := fun id _ w =>
       (w, Rejected (HttpError 404 (Some "Not Found")));
     api_deleteVariable := fun id w =>
       if String.eqb id "locked"
       then (w, Rejected (HttpError 403 (Some "Forbidden")))
       else if String.eqb id "gone"
       then (w, Rejected (mkJsError "Error" "socket hang up" None))
       else (List.filter (fun v => negb (String.eqb (variable_id v) id)) w,
             Fulfilled (mkVariable id [])) |}.

Definition code (d : ErrorData) : option string := Some "403".

Definition stage_of (w : list VariableSkeleton)
  : Stage (list VariableSkeleton) VariableRequest unit :=
  mkStage w [] [].

Definition v (id : string) : VariableSkeleton := mkVariable id [].

(** The world is the list of the scripts there are; the script [broken]
    cannot be read. *)
Definition scripts : ScriptsApi :=
  {| ScriptsWorld := list ScriptSkeleton;
     api_getScripts := fun w => (w, Fulfilled w);
     api_getScriptByName := fun n w =>
       if String.eqb n "broken"
       then (w, Rejected (HttpError 500 (Some "Internal Server Error")))
       else (w, Fulfilled (List.filter (fun x => String.eqb (name x) n) w)) |}.

Definition sc (id n : string) : ScriptSkeleton :=
  {| script_id := id; name := n; script := "" |}.

Definition typed (n type : string) : string := n +:+ "." +:+ type +:+ ".json".

Definition lines (text : string) : list string := [text].

Definition scripts_of (w : list ScriptSkeleton)
  : Stage (list ScriptSkeleton) ScriptRequest (list ScriptExport) :=
  mkStage w [] [].

End DemoCli.

(** ** BaseApi.ts

    The generators of API instances compute the configuration that is handed
    to [axios.create].  An instance is given by that configuration and by
    whether the curlirizer was attached.  The two agents are variables of
    the module, its state; the session ([storage.session]) and the
    environment ([process.env]) are read at every call. *)
Module BaseApi.

(** [maxSockets], [maxFreeSockets], [timeout], [freeSocketTimeout] *)
Record AgentOptions := mkAgentOptions {
  opt_maxSockets : Z;
  opt_maxFreeSockets : Z;
  opt_timeout : Z;
  opt_freeSocketTimeout : Z
}.

Inductive Agent :=
| KeepAliveAgent (options : AgentOptions)
| KeepAliveHttpsAgent (rejectUnauthorized : bool) (options : AgentOptions)
| HttpsProxyAgent (host port protocol : option string)
                  (rejectUnauthorized : bool).

(** [false] and [null], the two values of [getProxy]. *)
Inductive ProxyConfig := ProxyFalse | ProxyNull.

(** What [url.parse] yields, as far as it is read. *)
Record ParsedUrl := mkParsedUrl {
  hostname : option string;
  port : option string;
  protocol : option string
}.

Record Environment := mkEnvironment {
  HTTPS_PROXY : option string;
  https_proxy : option string
}.

(** What the generators read of the session. *)
Record Session := mkSession {
  getCookieName : option string;
  getCookieValue : option string;
  getAuthenticationHeaderOverrides : gmap string string;
  getBearerToken : option string;
  getCurlirize : bool;
  getAllowInsecureConnection : bool;
  getLogApiKey : string;
  getLogApiSecret : string
}.

(** The variables [httpAgent] and [httpsAgent] of the module. *)
Record ModuleState := mkModuleState {
  httpAgent : option Agent;
  httpsAgent : option Agent
}.

Record Resource := mkResource {
  path : string;
  apiVersion : option string
}.

(** [requestOverride]: the request configuration of axios, of which the
    generators set [timeout], [headers], the agents and [proxy]; the other
    properties are in [o_others].  A property is [None] when the override
    does not have it; an override that has it with the value [undefined] is
    not among these. *)
Record RequestOverride := mkOverride {
  o_timeout : option Z;
  o_headers : option (gmap string string);
  o_httpAgent : option Agent;
  o_httpsAgent : option Agent;
  o_proxy : option ProxyConfig;
  o_others : gmap string jsval
}.

(** [requestDetails] *)
Record RequestDetails := mkDetails {
  rd_timeout : Z;
  rd_headers : gmap string string;
  rd_httpAgent : Agent;
  rd_httpsAgent : Agent;
  rd_proxy : ProxyConfig;
  rd_others : gmap string jsval
}.

(** What [axios.create(requestDetails)] returns, and whether [curlirize]
    was applied to it. *)
Record Instance := mkInstance {
  config : RequestDetails;
  curlirized : bool
}.

(** A value where it is used as a condition: a string is truthy when it is
    there and not empty. *)
Definition truthy_string (v : option string) : option string :=
  match v with
  | Some s => if String.eqb s "" then None else Some s
  | None => None
  end.

Definition timeout : Z := 30000.
Definition maxSockets : Z := 100.
Definition maxFreeSockets : Z := 10.
Definition freeSocketTimeout : Z := 30000.

Definition agentOptions : AgentOptions :=
  {| opt_maxSockets := maxSockets; opt_maxFreeSockets := maxFreeSockets;
     opt_timeout := timeout; opt_freeSocketTimeout := freeSocketTimeout |}.

(** [process.env.HTTPS_PROXY || process.env.https_proxy], where truthy *)
Definition httpsProxy (env : Environment) : option string :=
  match truthy_string (HTTPS_PROXY env) with
  | Some p => Some p
  | None => truthy_string (https_proxy env)
  end.

(** [...(condition && { key: value })] *)
Definition spread_if (condition : option string) (key : string)
    (value : string -> string) (headers : gmap string string)
  : gmap string string :=
  match condition with
  | Some c => <[key := value c]> headers
  | None => headers
  end.

Section Generators.
(** [userAgent], made of the name and version of the package, and
    [transactionId], made of a random UUID, are fixed when the module is
    loaded; [url.parse] is a function of the platform. *)
Context (userAgent transactionId : string).
Context (url_parse : string -> ParsedUrl).

(** [getHttpAgent] (BaseApi.ts 49-58) *)
Definition getHttpAgent (st : ModuleState) : Agent * ModuleState :=
  match httpAgent st with
  | Some agent => (agent, st)
  | None =>
      let agent := KeepAliveAgent agentOptions in
      (agent, {| httpAgent := Some agent; httpsAgent := httpsAgent st |})
  end.

(** [getHttpsAgent] (BaseApi.ts 64-89).  The third component is what is
    written with [console.error]. *)
Definition getHttpsAgent (env : Environment) (session : Session)
    (st : ModuleState) : Agent * ModuleState * list string :=
  match httpsAgent st with
  | Some agent => (agent, st, [])
  | None =>
      let rejectUnauthorized := negb (getAllowInsecureConnection session) in
      match httpsProxy env with
      | Some proxy =>
          let parsed := url_parse proxy in
          let agent :=
            HttpsProxyAgent (hostname parsed) (port parsed) (protocol parsed)
              (negb (getAllowInsecureConnection session)) in
          (agent, {| httpAgent := httpAgent st; httpsAgent := Some agent |},
           ["Using proxy " +:+ proxy])
      | None =>
          let agent := KeepAliveHttpsAgent rejectUnauthorized agentOptions in
          (agent, {| httpAgent := httpAgent st; httpsAgent := Some agent |}, [])
      end
  end.

(** [getProxy] (BaseApi.ts 95-98) *)
Definition getProxy (env : Environment) : ProxyConfig :=
  match httpsProxy env with
  | Some _ => ProxyFalse
  | None => ProxyNull
  end.

(** The end of every generator: the agents and the proxy are put into the
    request details last, the instance is created, and the curlirizer is
    attached when the session asks for it. *)
Definition create (env : Environment) (session : Session)
    (st : ModuleState) (timeout : Z) (headers : gmap string string)
    (others : gmap string jsval) : Instance * ModuleState * list string :=
  let '(httpAgent, st) := getHttpAgent st in
  let '(httpsAgent, st, written) := getHttpsAgent env session st in
  let proxy := getProxy env in
  let requestDetails :=
    {| rd_timeout := timeout; rd_headers := headers;
       rd_httpAgent := httpAgent; rd_httpsAgent := httpsAgent;
       rd_proxy := proxy; rd_others := others |} in
  ({| config := requestDetails; curlirized := getCurlirize session |},
   st, written).

(** [Cookie: `${name}=${value}`], when both are known *)
Definition with_cookie (session : Session) (headers : gmap string string)
  : gmap string string :=
  match truthy_string (getCookieName session),
        truthy_string (getCookieValue session) with
  | Some cookieName, Some cookieValue =>
      <["Cookie" := cookieName +:+ "=" +:+ cookieValue]> headers
  | _, _ => headers
  end.

(** [requestDetails.headers['Authorization'] = `Bearer ${token}`], when
    there is a token *)
Definition with_bearer (session : Session) (headers : gmap string string)
  : gmap string string :=
  spread_if (truthy_string (getBearerToken session)) "Authorization"
            (fun token => "Bearer " +:+ token) headers.

(** [generateAmApi] (BaseApi.ts 123-164) *)
Definition generateAmApi (env : Environment) (session : Session)
    (resource : Resource) (requestOverride : RequestOverride)
    (st : ModuleState) : Instance * ModuleState * list string :=
  let headers : gmap string string :=
    with_cookie session
      (spread_if (truthy_string (apiVersion resource)) "Accept-API-Version"
         (fun v => v)
         (<["Content-Type" := "application/json"]>
            (<["X-ForgeRock-TransactionId" := transactionId]>
               {[ "User-Agent" := userAgent ]}))) in
  let headers :=
    match o_headers requestOverride with
    | Some overridden => overridden ∪ headers
    | None => headers
    end in
  create env session st
    (default timeout (o_timeout requestOverride))
    (getAuthenticationHeaderOverrides session ∪ headers)
    (o_others requestOverride).

(** [generateOauth2Api] (BaseApi.ts 174-214) *)
Definition generateOauth2Api (env : Environment) (session : Session)
    (resource : Resource) (requestOverride : RequestOverride)
    (st : ModuleState) : Instance * ModuleState * list string :=
  let headers : gmap string string :=
    with_cookie session
      (spread_if (truthy_string (apiVersion resource)) "Accept-API-Version"
         (fun v => v)
         (<["X-ForgeRock-TransactionId" := transactionId]>
            {[ "User-Agent" := userAgent ]})) in
  let headers :=
    match o_headers requestOverride with
    | Some overridden => overridden ∪ headers
    | None => headers
    end in
  create env session st
    (default timeout (o_timeout requestOverride))
    (getAuthenticationHeaderOverrides session ∪ headers)
    (o_others requestOverride).

(** [generateIdmApi] (BaseApi.ts 223-252) *)
Definition generateIdmApi (env : Environment) (session : Session)
    (requestOverride : RequestOverride) (st : ModuleState)
  : Instance * ModuleState * list string :=
  let headers : gmap string string :=
    <["Content-Type" := "application/json"]>
      (<["X-ForgeRock-TransactionId" := transactionId]>
         {[ "User-Agent" := userAgent ]}) in
  create env session st
    (default timeout (o_timeout requestOverride))
    (with_bearer session (default headers (o_headers requestOverride)))
    (o_others requestOverride).

(** [generateLogKeysApi] (BaseApi.ts 261-290) *)
Definition generateLogKeysApi (env : Environment) (session : Session)
    (requestOverride : RequestOverride) (st : ModuleState)
  : Instance * ModuleState * list string :=
  let headers : gmap string string :=
    <["Content-Type" := "application/json"]> {[ "User-Agent" := userAgent ]} in
  create env session st
    (default timeout (o_timeout requestOverride))
    (with_bearer session (default headers (o_headers requestOverride)))
    (o_others requestOverride).

(** [generateLogApi] (BaseApi.ts 299-323) *)
Definition generateLogApi (env : Environment) (session : Session)
    (requestOverride : RequestOverride) (st : ModuleState)
  : Instance * ModuleState * list string :=
  let headers : gmap string string :=
    <["X-API-Secret" := getLogApiSecret session]>
      (<["X-API-Key" := getLogApiKey session]>
         {[ "User-Agent" := userAgent ]}) in
  create env session st
    (default timeout (o_timeout requestOverride))
    (default headers (o_headers requestOverride))
    (o_others requestOverride).

(** [generateESVApi] (BaseApi.ts 332-363) *)
Definition generateESVApi (env : Environment) (session : Session)
    (resource : Resource) (requestOverride : RequestOverride)
    (st : ModuleState) : Instance * ModuleState * list string :=
  let headers : gmap string string :=
    spread_if (truthy_string (apiVersion resource)) "Accept-API-Version"
      (fun v => v)
      (<["Content-Type" := "application/json"]>
         {[ "User-Agent" := userAgent ]}) in
  create env session st
    (default timeout (o_timeout requestOverride))
    (with_bearer session (default headers (o_headers requestOverride)))
    (o_others requestOverride).

(** [generateReleaseApi] (BaseApi.ts 372-394) *)
Definition generateReleaseApi (env : Environment) (session : Session)
    (baseUrl : string) (requestOverride : RequestOverride) (st : ModuleState)
  : Instance * ModuleState * list string :=
  let headers : gmap string string :=
    <["Content-Type" := "application/json"]> {[ "User-Agent" := userAgent ]} in
  create env session st
    (default timeout (o_timeout requestOverride))
    (default headers (o_headers requestOverride))
    (o_others requestOverride ∪ {[ "baseURL" := JStr baseUrl ]}).

(** *** Vocabulary *)

(** One call of one of the generators. *)
Inductive Generator :=
| AmApi (resource : Resource)
| Oauth2Api (resource : Resource)
| IdmApi
| LogKeysApi
| LogApi
| ESVApi (resource : Resource)
| ReleaseApi (baseUrl : string).

Definition generate (g : Generator) (env : Environment) (session : Session)
    (requestOverride : RequestOverride) (st : ModuleState)
  : Instance * ModuleState * list string :=
  match g with
  | AmApi resource => generateAmApi env session resource requestOverride st
  | Oauth2Api resource =>
      generateOauth2Api env session resource requestOverride st
  | IdmApi => generateIdmApi env session requestOverride st
  | LogKeysApi => generateLogKeysApi env session requestOverride st
  | LogApi => generateLogApi env session requestOverride st
  | ESVApi resource => generateESVApi env session resource requestOverride st
  | ReleaseApi baseUrl =>
      generateReleaseApi env session baseUrl requestOverride st
  end.

(** The generators that send the bearer token of the session. *)
Definition sends_bearer (g : Generator) : bool :=
  match g with
  | IdmApi | LogKeysApi | ESVApi _ => true
  | _ => false
  end.

(** The generators that merge the headers of the override into their own. *)
Definition merges_headers (g : Generator) : bool :=
  match g with
  | AmApi _ | Oauth2Api _ => true
  | _ => false
  end.

(** The headers of the instance that a generator makes. *)
Definition headers_of (g : Generator) (env : Environment) (session : Session)
    (requestOverride : RequestOverride) (st : ModuleState)
  : gmap string string :=
  rd_headers (config (fst (fst (generate g env session requestOverride st)))).

End Generators.

(** The session without its authentication header overrides. *)
Definition plain (session : Session) : Session :=
  {| getCookieName := getCookieName session;
     getCookieValue := getCookieValue session;
     getAuthenticationHeaderOverrides := ∅;
     getBearerToken := getBearerToken session;
     getCurlirize := getCurlirize session;
     getAllowInsecureConnection := getAllowInsecureConnection session;
     getLogApiKey := getLogApiKey session;
     getLogApiSecret := getLogApiSecret session |}.

(** A session and an override to run the generators with. *)
Definition demo_session : Session :=
  {| getCookieName := Some "iPlanetDirectoryPro";
     getCookieValue := Some "token";
     getAuthenticationHeaderOverrides := {[ "X-Override" := "1" ]};
     getBearerToken := Some "abc";
     getCurlirize := false;
     getAllowInsecureConnection := false;
     getLogApiKey := "key";
     getLogApiSecret := "secret" |}.

Definition no_override : RequestOverride :=
  {| o_timeout := None; o_headers := None; o_httpAgent := None;
     o_httpsAgent := None; o_proxy := None; o_others := ∅ |}.

Definition fresh : ModuleState := {| httpAgent := None; httpsAgent := None |}.

End BaseApi.

(** ** Facts about the monad and the requests *)

Section Facts.
Context (B : Backend).
Implicit Types s : State B.

Lemma first_rejection_In e es :
  In (first_rejection B e es) (e :: es).
Proof.
  unfold first_rejection.
  destruct (Nat.lt_ge_cases (race B (e :: es)) (length (e :: es))) as [Hlt|Hge].
  - now apply nth_In.
  - rewrite nth_overflow by exact Hge. now left.
Qed.

Lemma length_rejections_fulfilments {A} (rs : list (Settled A)) :
  (length (rejections rs) + length (fulfilments rs))%nat = length rs.
Proof.
  induction rs as [|[a|e] rs IH]; simpl; lia.
Qed.

(** A fan-out of plain requests: all of them are issued, in order, and
    nothing but the backend and the exchange log changes. *)
Lemma all_settled_requests {X A} (f : X -> Request) (answer : A -> Response)
    (h : X -> World B -> World B * Settled A) (xs : list X) s :
  let '(s', rs) :=
    all_settled (map (fun x => request B (f x) answer (h x)) xs) s in
  heap s' = heap s /\ printed s' = printed s /\ debugged s' = debugged s /\
  length rs = length xs /\
  exchanges s' =
    (exchanges s ++ zip (map f xs) (map (settled_map answer) rs))%list.
Proof.
  revert s. induction xs as [|x xs IH]; intros s; simpl.
  - rewrite app_nil_r. auto.
  - unfold request at 1.
    destruct (h x (world s)) as [w1 r1].
    match goal with
    | |- context [all_settled ?ps ?s1] =>
        specialize (IH s1); destruct (all_settled ps s1) as [s2 rs]
    end.
    simpl in IH. destruct IH as (Hh & Hp & Hd & Hl & He).
    simpl. rewrite He, <- app_assoc. simpl. repeat split; auto.
Qed.

End Facts.

(** ** Deleting a full tree *)

Section DeleteFullService.
Context (B : Backend).

(** C1, as the code has it: once the descendents are listed, the delete of
    every descendent is issued, in order and whatever the outcome of the
    others; the delete of the parent follows exactly when every one of them
    was fulfilled.  When one is rejected, no parent delete is issued and
    [deleteFullService] rejects with one of the rejections. *)
Theorem deleteFullService_deletes_parent_after_all_children
    (serviceId : string) (s : State B) (w1 : World B)
    (children : list ServiceNextDescendent) :
  api_getServiceDescendents B serviceId (world s) = (w1, Fulfilled children) ->
  let '(s', r) := deleteFullService B serviceId s in
  exists (outcomes : list (Settled Response)) (parent : list Exchange),
    length outcomes = length children /\
    exchanges s' =
      (exchanges s
         ++ (GetServiceDescendents serviceId, Fulfilled (Descendents children))
         :: zip (map (child_delete serviceId) children) outcomes
         ++ parent)%list /\
    (rejections outcomes = [] ->
     exists res, parent = [(DeleteService serviceId, res)]) /\
    (rejections outcomes <> [] ->
     parent = [] /\ exists e, r = Rejected e /\ In e (rejections outcomes)).
Proof.
  intros Hlist.
  unfold deleteFullService, bind, getServiceDescendents.
  unfold request at 1. rewrite Hlist. unfold promise_all.
  match goal with
  | |- context [all_settled (map ?g children) ?s1] =>
      pose proof (all_settled_requests B (child_delete serviceId) Descendent
                    (fun d => api_deleteServiceNextDescendent B serviceId
                                (_type_id d) (_id d)) children s1) as Hall;
      change (map g children)
        with (map (fun d => request B (child_delete serviceId d) Descendent
                              (api_deleteServiceNextDescendent B serviceId
                                 (_type_id d) (_id d))) children);
      destruct (all_settled
                  (map (fun d => request B (child_delete serviceId d) Descendent
                                   (api_deleteServiceNextDescendent B serviceId
                                      (_type_id d) (_id d))) children) s1)
        as [s2 rs]
  end.
  simpl in Hall. destruct Hall as (_ & _ & _ & Hlen & Hex).
  assert (Hrej : rejections (map (settled_map Descendent) rs) = rejections rs).
  { clear. induction rs as [|[a|e] rs IH]; simpl; congruence. }
  unfold settle_all.
  destruct (rejections rs) as [|e es] eqn:Hrs.
  - unfold deleteService, request.
    destruct (api_deleteService B serviceId (world s2)) as [w3 res].
    destruct res as [a|e]; simpl;
      exists (map (settled_map Descendent) rs);
      eexists; (split; [now rewrite length_map|]);
      (split; [rewrite Hex, <- !app_assoc; simpl; reflexivity|]);
      (split; [intros _; eauto | rewrite Hrej; intros Hne; now destruct Hne]).
  - exists (map (settled_map Descendent) rs), [].
    split; [now rewrite length_map|].
    split; [rewrite Hex, <- !app_assoc, app_nil_r; reflexivity|].
    rewrite Hrej. split; [discriminate|].
    intros _. split; [reflexivity|].
    eexists. split; [reflexivity|]. apply first_rejection_In.
Qed.

End DeleteFullService.

Lemma deleteFullService_deletes_parent_after_all_children_witness :
  api_getServiceDescendents Demo.backend "svc1" (world (Demo.initial ∅))
    = (1%nat, Fulfilled [Demo.c1; Demo.c2]) /\
  let '(s', r) := deleteFullService Demo.backend "svc1" (Demo.initial ∅) in
  exists (outcomes : list (Settled Response)) (parent : list Exchange),
    length outcomes = length [Demo.c1; Demo.c2] /\
    exchanges s' =
      (exchanges (Demo.initial ∅)
         ++ (GetServiceDescendents "svc1",
             Fulfilled (Descendents [Demo.c1; Demo.c2]))
         :: zip (map (child_delete "svc1") [Demo.c1; Demo.c2]) outcomes
         ++ parent)%list /\
    (rejections outcomes = [] ->
     exists res, parent = [(DeleteService "svc1", res)]) /\
    (rejections outcomes <> [] ->
     parent = [] /\ exists e, r = Rejected e /\ In e (rejections outcomes)).
Proof.
  split; [reflexivity|].
  apply (deleteFullService_deletes_parent_after_all_children
           Demo.backend "svc1" (Demo.initial ∅) 1%nat [Demo.c1; Demo.c2]).
  reflexivity.
Defined.

(** C1 as stated fails: with the descendents [c1] and [c2], the delete of [c1]
    rejected and the delete of [c2] issued all the same, no delete of the
    parent [svc1] is attempted. *)
Lemma deleteFullService_skips_parent_after_child_failure :
  let '(s', r) := deleteFullService Demo.backend "svc1" (Demo.initial ∅) in
  exchanges s' =
    [ (GetServiceDescendents "svc1", Fulfilled (Descendents [Demo.c1; Demo.c2]));
      (DeleteServiceNextDescendent "svc1" "a" "c1",
       Rejected (HttpError 500 (Some "Internal Server Error")));
      (DeleteServiceNextDescendent "svc1" "b" "c2",
       Fulfilled (Descendent {| _id := "c2"; _type_id := "b"; body := [] |})) ] /\
  r = Rejected (HttpError 500 (Some "Internal Server Error")) /\
  ~ In (DeleteService "svc1") (sent s').
Proof.
  vm_compute. split; [reflexivity|]. split; [reflexivity|].
  intros [H|[H|[H|[]]]]; discriminate H.
Qed.

(** ** The content transform *)

Lemma split_lines_nonempty (text : string) : split_lines text <> [].
Proof.
  destruct text as [|c text]; simpl; [discriminate|].
  destruct (Ascii.eqb c newline); [discriminate|].
  destruct (split_lines text); discriminate.
Qed.

Lemma concat_split_lines (text : string) :
  String.concat (String newline EmptyString) (split_lines text) = text.
Proof.
  induction text as [|c text IH]; [reflexivity|].
  cbn [split_lines].
  destruct (Ascii.eqb c newline) eqn:Hc.
  - apply Ascii.eqb_eq in Hc. subst c.
    pose proof (split_lines_nonempty text) as Hne.
    destruct (split_lines text) as [|line more]; [contradiction|].
    rewrite <- IH. reflexivity.
  - pose proof (split_lines_nonempty text) as Hne.
    destruct (split_lines text) as [|line more]; [contradiction|].
    destruct more as [|line' more]; cbn [String.concat] in *.
    + now rewrite IH.
    + rewrite <- IH. reflexivity.
Qed.

(** C5: the content transform is total and reversible: cutting a blob into
    its lines and joining the lines again gives back the blob, byte for byte,
    and the empty blob is cut into the empty sequence. *)
Theorem content_transform_round_trip (blob : string) :
  convertTextArrayToBase64 (convertBase64TextToArray blob) = blob /\
  convertBase64TextToArray EmptyString = [].
Proof.
  split; [|reflexivity].
  unfold convertTextArrayToBase64, convertBase64TextToArray.
  destruct blob as [|c blob]; [reflexivity|].
  apply concat_split_lines.
Qed.


(** ** Creating a script under a name that is taken *)

Section CreateOrUpdateScript.
Context (B : Backend) (applyNameCollisionPolicy : string -> string).

(** C2, as the code has it: every conflict is followed by the resolver and by
    a retry under the resolved name, for as long as the writes conflict.
    When the backend answers the first [k] writes with a conflict, the call
    makes [k + 1] writes, the one after a conflict under the name the
    resolver made of the name before, and reports the last of these names;
    [k] is not bounded. *)
Theorem createOrUpdateScript_retries_after_every_conflict
    (k fuel : nat) (id : string) (data : ScriptSkeleton) (s : State B) :
  conflicts B applyNameCollisionPolicy k id data (world s) = true ->
  (k < fuel)%nat ->
  let '(s', r) :=
    createOrUpdateScript B applyNameCollisionPolicy fuel id data s in
  sent s' =
    (sent s
       ++ map (fun i => PutScript id (renamed applyNameCollisionPolicy i data))
              (seq 0 (S k)))%list /\
  exists st,
    r = Fulfilled (Some (st, renamed applyNameCollisionPolicy k data)) /\
    status_name st = name (renamed applyNameCollisionPolicy k data).
Proof.
  revert fuel data s.
  induction k as [|k IH]; intros fuel data s Hc Hf;
    (destruct fuel as [|fuel]; [lia|]);
    cbn [createOrUpdateScript conflicts] in *;
    unfold try_catch, bind, putScript in *; unfold request at 1;
    destruct (api_putScript B id data (world s)) as [w1 [a|e]];
    cbn [fst snd] in *; try discriminate.
  - split; [unfold sent; cbn; now rewrite map_app|]. eauto.
  - apply negb_true_iff in Hc. rewrite Hc.
    unfold printMessage, ret, sent. cbn.
    split; [now rewrite map_app|]. eauto.
  - apply andb_true_iff in Hc. destruct Hc as [H409 Hc]. rewrite H409.
    unfold printMessage at 1 2. cbn [fst snd].
    match goal with
    | |- context [createOrUpdateScript _ _ fuel id ?d ?s1] =>
        specialize (IH fuel d s1 Hc ltac:(lia));
        destruct (createOrUpdateScript B applyNameCollisionPolicy fuel id d s1)
          as [s2 r2]
    end.
    destruct IH as [Hsent (st & -> & Hname)].
    unfold ret. split; [|eauto].
    rewrite Hsent. unfold sent. cbn. rewrite map_app. cbn.
    rewrite <- app_assoc. cbn [app]. do 3 f_equal.
    rewrite <- (seq_shift k 1), map_map. reflexivity.
Qed.

End CreateOrUpdateScript.

Lemma createOrUpdateScript_retries_after_every_conflict_witness :
  conflicts Demo.backend Demo.policy 2 "id1" Demo.myScript
            (world (Demo.initial ∅)) = true /\
  (2 < 5)%nat /\
  let '(s', r) :=
    createOrUpdateScript Demo.backend Demo.policy 5 "id1" Demo.myScript
                         (Demo.initial ∅) in
  sent s' =
    (sent (Demo.initial ∅)
       ++ map (fun i => PutScript "id1" (renamed Demo.policy i Demo.myScript))
              (seq 0 3))%list /\
  exists st,
    r = Fulfilled (Some (st, renamed Demo.policy 2 Demo.myScript)) /\
    status_name st = name (renamed Demo.policy 2 Demo.myScript).
Proof.
  split; [reflexivity|]. split; [lia|].
  apply (createOrUpdateScript_retries_after_every_conflict
           Demo.backend Demo.policy 2 5 "id1" Demo.myScript (Demo.initial ∅));
    [reflexivity | lia].
Defined.

(** C2 as stated fails: the first write conflicts and so does the single
    retry the claim allows; the code then makes a second retry, under the
    name resolved twice, and reports success. *)
Lemma createOrUpdateScript_retries_twice :
  let '(s', r) :=
    createOrUpdateScript Demo.backend Demo.policy 5 "id1" Demo.myScript
                         (Demo.initial ∅) in
  exchanges s' =
    [ (PutScript "id1" Demo.myScript,
       Rejected (HttpError 409 (Some "Conflict")));
      (PutScript "id1" (set_name "myScript'" Demo.myScript),
       Rejected (HttpError 409 (Some "Conflict")));
      (PutScript "id1" (set_name "myScript''" Demo.myScript),
       Fulfilled (Script (set_name "myScript''" Demo.myScript))) ] /\
  r = Fulfilled (Some ({| error := false; status_name := "myScript''" |},
                       set_name "myScript''" Demo.myScript)).
Proof.
  vm_compute. split; reflexivity.
Qed.

(** ** Importing one service *)

Section PutFullService.
Context (B : Backend).
Implicit Types s : State B.

Lemma Forall_zip_fst {X Y} (P : X -> Prop) (xs : list X) (ys : list Y) :
  Forall P xs -> Forall (fun p => P (fst p)) (zip xs ys).
Proof.
  intros H. revert ys. induction H as [|x xs Hx _ IH]; intros [|y ys]; simpl;
    constructor; auto.
Qed.

(** [deleteFullService] touches the backend only, and writes nothing. *)
Lemma deleteFullService_frame (serviceId : string) s :
  let '(s', _) := deleteFullService B serviceId s in
  heap s' = heap s /\ printed s' = printed s /\ debugged s' = debugged s /\
  exists reqs,
    exchanges s' = (exchanges s ++ reqs)%list /\
    Forall (fun x => is_put (fst x) = false) reqs.
Proof.
  unfold deleteFullService, bind, getServiceDescendents.
  unfold request at 1.
  destruct (api_getServiceDescendents B serviceId (world s)) as [w1 [children|e]].
  2:{ cbn. repeat split; auto. eexists. split; [reflexivity|].
      repeat constructor. }
  unfold promise_all.
  match goal with
  | |- context [all_settled (map ?g children) ?s1] =>
      pose proof (all_settled_requests B (child_delete serviceId) Descendent
                    (fun d => api_deleteServiceNextDescendent B serviceId
                                (_type_id d) (_id d)) children s1) as Hall;
      change (map g children)
        with (map (fun d => request B (child_delete serviceId d) Descendent
                              (api_deleteServiceNextDescendent B serviceId
                                 (_type_id d) (_id d))) children);
      destruct (all_settled
                  (map (fun d => request B (child_delete serviceId d) Descendent
                                   (api_deleteServiceNextDescendent B serviceId
                                      (_type_id d) (_id d))) children) s1)
        as [s2 rs]
  end.
  cbn in Hall. destruct Hall as (Hh & Hp & Hd & Hlen & Hex).
  assert (Hdel : Forall (fun x : Exchange => is_put (fst x) = false)
                   (zip (map (child_delete serviceId) children)
                        (map (settled_map Descendent) rs))).
  { apply (Forall_zip_fst (fun r => is_put r = false)).
    clear. induction children; simpl; constructor; auto. }
  destruct (settle_all B rs) as [a|e].
  - unfold deleteService, request.
    destruct (api_deleteService B serviceId (world s2)) as [w3 [a'|e']];
      cbn; (repeat split; auto);
      eexists; (split; [rewrite Hex, <- !app_assoc; reflexivity|]);
      (apply Forall_app; split; [constructor; [reflexivity|]|]);
      try (apply Forall_app; split); auto; repeat constructor.
  - repeat split; auto.
    eexists. split; [rewrite Hex, <- !app_assoc; reflexivity|].
    constructor; [reflexivity|exact Hdel].
Qed.

Lemma omap_unreadable_nil (nds : list Member) :
  omap unreadable nds = [] <-> forallb has_type nds = true.
Proof.
  induction nds as [|[d| |n ps] nds IH]; cbn; try tauto;
    split; discriminate.
Qed.

Lemma omap_typed_WithType (ds : list ServiceNextDescendent) :
  omap typed (map WithType ds) = ds.
Proof. induction ds as [|d ds IH]; cbn; [reflexivity|]. now rewrite IH. Qed.

Lemma omap_unreadable_WithType (ds : list ServiceNextDescendent) :
  omap unreadable (map WithType ds) = [].
Proof. induction ds as [|d ds IH]; cbn; auto. Qed.

(** The creation of the descendents: a request is made for every member of
    which [_type._id] can be read, the promises of these do not reject, those
    of the other members reject without a request, and what is printed are
    the reports of the failed creations. *)
Lemma all_settled_descendents (serviceId : string) (nds : list Member) s :
  let '(s', rs) :=
    all_settled (map (putFullService_descendent B serviceId) nds) s in
  heap s' = heap s /\ rejections rs = omap unreadable nds /\
  exists outcomes,
    length outcomes = length (omap typed nds) /\
    exchanges s' =
      (exchanges s
         ++ zip (map (child_put serviceId) (omap typed nds)) outcomes)%list /\
    printed s' =
      (printed s
         ++ omap (descendent_failure serviceId)
                 (zip (omap typed nds) outcomes))%list.
Proof.
  revert s. induction nds as [|[d| |n ps] nds IH]; intros s;
    cbn [map all_settled].
  - repeat split; auto. exists []. cbn. rewrite !app_nil_r. auto.
  - cbn [putFullService_descendent].
    unfold bind, try_catch, debugMessage, putServiceNextDescendent, request.
    cbn [world heap exchanges printed debugged].
    destruct (api_putServiceNextDescendent B serviceId (_type_id d) (_id d) d
                (world s)) as [w1 [a|e]]; unfold printMessage, ret;
      cbv beta iota zeta; cbn [world heap exchanges printed debugged];
      match goal with
      | |- context [all_settled _ ?s1] =>
          specialize (IH s1); destruct (all_settled _ s1) as [s2 rs]
      end;
      cbn in IH; destruct IH as (Hh & Hr & outs & Hl & He & Hp);
      (split; [exact Hh|]); (split; [exact Hr|]).
    + exists (Fulfilled (Descendent a) :: outs).
      cbn. rewrite He, Hp, <- app_assoc. auto.
    + exists (Rejected e :: outs).
      cbn. rewrite He, Hp, <- !app_assoc. auto.
  - cbn [putFullService_descendent]. unfold throw at 1.
    specialize (IH s).
    destruct (all_settled (map (putFullService_descendent B serviceId) nds) s)
      as [s2 rs].
    destruct IH as (Hh & Hr & outs & Hl & He & Hp).
    cbn. rewrite Hr. repeat split; auto. exists outs. auto.
  - cbn [putFullService_descendent]. unfold throw at 1.
    specialize (IH s).
    destruct (all_settled (map (putFullService_descendent B serviceId) nds) s)
      as [s2 rs].
    destruct IH as (Hh & Hr & outs & Hl & He & Hp).
    cbn. rewrite Hr. repeat split; auto. exists outs. auto.
Qed.

Lemma Forall_descendent_failure (serviceId : string)
    (ps : list (ServiceNextDescendent * Settled Response)) :
  Forall (fun line => exists d e, line = descendent_report serviceId d e)
         (omap (descendent_failure serviceId) ps).
Proof.
  induction ps as [|[d [a|e]] ps IH]; cbn; [constructor|exact IH|].
  constructor; eauto.
Qed.

Lemma Forall_child_put {Y} (serviceId : string)
    (ds : list ServiceNextDescendent) (ys : list Y) :
  Forall (fun x : Request * Y => is_child_put (fst x) = true)
         (zip (map (child_put serviceId) ds) ys).
Proof.
  apply (Forall_zip_fst (fun r => is_child_put r = true)).
  induction ds; simpl; constructor; auto.
Qed.

(** From the creation of the parent on: the parent is requested first; its
    descendents are requested after it, and only when it was created. *)
Lemma putFullService_create_run (serviceId : string) (payload : FullService)
    (nds : option (list Member)) s :
  let '(s', r) := putFullService_create B serviceId payload nds s in
  heap s' = heap s /\
  exists res children more,
    exchanges s' =
      (exchanges s ++ (PutService serviceId payload, res) :: children)%list /\
    printed s' = (printed s ++ more)%list /\
    Forall (fun line => exists d e, line = descendent_report serviceId d e) more /\
    Forall (fun x : Exchange => is_child_put (fst x) = true) children /\
    match res with
    | Rejected e => children = [] /\ more = [] /\ r = Rejected e
    | Fulfilled answer =>
        exists parent, answer = Service parent /\
        match nds with
        | None =>
            children = [] /\ more = [] /\
            r = Rejected (TypeError
                   "Cannot read properties of undefined (reading 'length')")
        | Some [] => children = [] /\ more = [] /\ r = Fulfilled (Some parent)
        | Some (d :: ds) =>
            r = members_outcome B (d :: ds) /\
            exists outcomes,
              length outcomes = length (omap typed (d :: ds)) /\
              children =
                zip (map (child_put serviceId) (omap typed (d :: ds)))
                    outcomes /\
              more =
                omap (descendent_failure serviceId)
                     (zip (omap typed (d :: ds)) outcomes)
        end
    end.
Proof.
  unfold putFullService_create, bind, putService, request.
  destruct (api_putService B serviceId payload (world s)) as [w1 [parent|e]].
  2:{ cbn. split; [reflexivity|]. exists (Rejected e), [], [].
      rewrite app_nil_r. repeat split; auto. }
  destruct nds as [[|d ds]|].
  - cbn. split; [reflexivity|].
    exists (Fulfilled (Service parent)), [], [].
    rewrite app_nil_r. repeat split; eauto.
  - cbn [length Nat.eqb]. unfold promise_all.
    match goal with
    | |- context [all_settled _ ?s1] =>
        pose proof (all_settled_descendents serviceId (d :: ds) s1) as Hall;
        destruct (all_settled (map (putFullService_descendent B serviceId)
                                   (d :: ds)) s1) as [s2 rs]
    end.
    destruct Hall as (Hh & Hr & outs & Hl & He & Hp).
    unfold settle_all, members_outcome. rewrite Hr.
    cbn in He, Hp.
    destruct (omap unreadable (d :: ds)) as [|e es]; cbn;
      (split; [exact Hh|]);
      exists (Fulfilled (Service parent)),
        (zip (map (child_put serviceId) (omap typed (d :: ds))) outs),
        (omap (descendent_failure serviceId) (zip (omap typed (d :: ds)) outs));
      rewrite He, Hp, <- app_assoc;
      (repeat split; auto;
       [ apply Forall_descendent_failure
       | apply Forall_child_put
       | exists parent; split; [reflexivity|]; split; [reflexivity|];
         exists outs; auto ]).
  - cbn. split; [reflexivity|].
    exists (Fulfilled (Service parent)), [], [].
    rewrite app_nil_r. repeat split; eauto.
Qed.

(** The parent write is answered by the backend as it is when the creation
    begins. *)
Lemma putFullService_create_first (serviceId : string) (payload : FullService)
    (nds : option (list Member)) s :
  exists children,
    exchanges (fst (putFullService_create B serviceId payload nds s)) =
      (exchanges s
         ++ (PutService serviceId payload,
             settled_map Service
               (snd (api_putService B serviceId payload (world s))))
         :: children)%list.
Proof.
  unfold putFullService_create, bind at 1, putService, request.
  destruct (api_putService B serviceId payload (world s)) as [w3 [parent|e]];
    [|cbn; eauto].
  destruct nds as [[|d ds]|]; [cbn; eauto| |cbn; eauto].
  cbn [length Nat.eqb]. unfold bind at 1, promise_all.
  match goal with
  | |- context [all_settled _ ?s1] =>
      pose proof (all_settled_descendents serviceId (d :: ds) s1) as Hall;
      destruct (all_settled
                  (map (putFullService_descendent B serviceId) (d :: ds)) s1)
        as [s4 rs]
  end.
  destruct Hall as (_ & _ & outs & _ & He4 & _).
  cbn [exchanges] in He4.
  destruct (settle_all B rs); cbn; rewrite He4, <- ?app_assoc; cbn; eauto.
Qed.

(** The pre-clean never rejects and leaves nothing behind but the requests of
    [deleteFullService] and, for a failure other than "not found", one line. *)
Lemma putFullService_clean_run (serviceId : string) s :
  let '(s1, r) :=
    deleteFullService B serviceId
      (fst (debugMessage "ServiceOps.putFullService: clean" s)) in
  let '(s2, r2) := putFullService_clean B serviceId true s in
  r2 = Fulfilled tt /\
  world s2 = world s1 /\ heap s2 = heap s1 /\ exchanges s2 = exchanges s1 /\
  printed s2 = (printed s1 ++ preclean_report serviceId r)%list.
Proof.
  unfold putFullService_clean, try_catch, bind.
  cbn [debugMessage fst].
  destruct (deleteFullService B serviceId _) as [s1 [[]|e]].
  - cbn. rewrite app_nil_r. auto.
  - cbn [preclean_report].
    destruct (status_is 404 e && message_is "Not Found" e); cbn.
    + rewrite app_nil_r. auto.
    + auto.
Qed.

Lemma putFullService_clean_frame (serviceId : string) (clean : bool) s :
  let '(s2, r2) := putFullService_clean B serviceId clean s in
  r2 = Fulfilled tt /\ heap s2 = heap s /\
  exists before more,
    exchanges s2 = (exchanges s ++ before)%list /\
    Forall (fun x : Exchange => is_put (fst x) = false) before /\
    printed s2 = (printed s ++ more)%list /\
    (clean = false -> before = [] /\ more = [] /\ world s2 = world s).
Proof.
  destruct clean.
  - pose proof (putFullService_clean_run serviceId s) as Hrun.
    pose proof (deleteFullService_frame serviceId
                  (fst (debugMessage "ServiceOps.putFullService: clean" s)))
      as Hfr.
    destruct (deleteFullService B serviceId _) as [s1 r].
    destruct (putFullService_clean B serviceId true s) as [s2 r2].
    destruct Hrun as (-> & Hw & Hh & He & Hp).
    destruct Hfr as (Hh1 & Hp1 & _ & reqs & He1 & Hreqs).
    cbn in Hh1, Hp1, He1.
    split; [reflexivity|]. split; [congruence|].
    exists reqs, (preclean_report serviceId r).
    repeat split; try congruence; auto; discriminate.
  - cbn. split; [reflexivity|]. split; [reflexivity|].
    exists [], []. rewrite !app_nil_r. repeat split; auto.
Qed.

(** [putFullService] on a reference to an object: the properties are deleted
    from the object, then comes the pre-clean, then the creation. *)
Lemma putFullService_phases (serviceId : string) (l : loc) (o : FullService)
    (clean : bool) s :
  heap s !! l = Some o ->
  putFullService B serviceId (Some l) clean s =
  (putFullService_clean B serviceId clean ;;;
   putFullService_create B serviceId (stripped o) (nextDescendents o))
    (entered B serviceId l s).
Proof.
  intros Hl.
  unfold putFullService.
  change (if clean then _ else ret tt) with (putFullService_clean B serviceId clean).
  unfold bind at 1 2. cbn [debugMessage].
  unfold get_property at 1. cbn [heap]. rewrite Hl.
  unfold bind at 1 2 3. cbn [delete_property heap world exchanges printed debugged].
  fold (entered B serviceId l s).
  unfold bind.
  pose proof (putFullService_clean_frame serviceId clean (entered B serviceId l s))
    as Hfr.
  destruct (putFullService_clean B serviceId clean (entered B serviceId l s))
    as [s2 r2].
  destruct Hfr as (-> & Hh & _).
  unfold dereference, get_property. rewrite Hh. cbn [entered heap].
  rewrite !lookup_alter_eq, Hl. cbn [fmap option_fmap option_map].
  reflexivity.
Qed.

Lemma entered_heap (serviceId : string) (l : loc) (o : FullService) s :
  heap s !! l = Some o ->
  heap (entered B serviceId l s) = <[l := stripped o]> (heap s).
Proof.
  intros Hl. cbn [entered heap]. apply map_eq. intros i.
  destruct (decide (i = l)) as [->|Hne].
  - rewrite !lookup_alter_eq, Hl, lookup_insert_eq. reflexivity.
  - rewrite !lookup_alter_ne, lookup_insert_ne by congruence. reflexivity.
Qed.

(** The whole of [putFullService] on a reference to an object. *)
Lemma putFullService_run (serviceId : string) (l : loc) (o : FullService)
    (clean : bool) s :
  heap s !! l = Some o ->
  let '(s', r) := putFullService B serviceId (Some l) clean s in
  heap s' = <[l := stripped o]> (heap s) /\
  exists before res children,
    exchanges s' =
      (exchanges s ++ before
         ++ (PutService serviceId (stripped o), res) :: children)%list /\
    Forall (fun x : Exchange => is_put (fst x) = false) before /\
    Forall (fun x : Exchange => is_child_put (fst x) = true) children /\
    match res with
    | Rejected e => children = [] /\ r = Rejected e
    | Fulfilled answer =>
        exists parent, answer = Service parent /\
        match nextDescendents o with
        | None =>
            children = [] /\
            r = Rejected (TypeError
                   "Cannot read properties of undefined (reading 'length')")
        | Some [] => children = [] /\ r = Fulfilled (Some parent)
        | Some (d :: ds) =>
            r = members_outcome B (d :: ds) /\
            exists outcomes,
              length outcomes = length (omap typed (d :: ds)) /\
              children =
                zip (map (child_put serviceId) (omap typed (d :: ds)))
                    outcomes
        end
    end.
Proof.
  intros Hl. rewrite (putFullService_phases serviceId l o clean s Hl).
  unfold bind.
  pose proof (putFullService_clean_frame serviceId clean (entered B serviceId l s))
    as Hfr.
  destruct (putFullService_clean B serviceId clean (entered B serviceId l s))
    as [s2 r2].
  destruct Hfr as (-> & Hh & before & more & He & Hb & _).
  pose proof (putFullService_create_run serviceId (stripped o)
                (nextDescendents o) s2) as Hcr.
  destruct (putFullService_create B serviceId (stripped o) (nextDescendents o) s2)
    as [s' r].
  destruct Hcr as (Hh' & res & children & more' & He' & _ & _ & Hc & Hres).
  split; [rewrite Hh', Hh; now apply entered_heap|].
  exists before, res, children.
  split; [rewrite He', He, <- app_assoc; reflexivity|].
  split; [exact Hb|]. split; [exact Hc|].
  destruct res as [answer|e].
  - destruct Hres as (parent & Ha & Hres). exists parent. split; [exact Ha|].
    destruct (nextDescendents o) as [[|d ds]|].
    + destruct Hres as (? & _ & ?). auto.
    + destruct Hres as (Hr & outs & Hlen & Hch & _). split; [exact Hr|].
      exists outs. auto.
    + destruct Hres as (? & _ & ?). auto.
  - destruct Hres as (? & _ & ?). auto.
Qed.

(** [putFullService] on [undefined], or on a reference to nothing: it throws
    at once. *)
Lemma putFullService_undefined (serviceId : string) (ref : option loc)
    (clean : bool) s :
  match ref with Some l => heap s !! l = None | None => True end ->
  let '(s', r) := putFullService B serviceId ref clean s in
  exchanges s' = exchanges s /\ heap s' = heap s /\ printed s' = printed s /\
  is_fulfilled r = false.
Proof.
  intros Href. unfold putFullService, bind at 1 2.
  cbn [debugMessage]. unfold get_property.
  destruct ref as [l|]; cbn [heap]; [rewrite Href|]; cbn; auto.
Qed.

End PutFullService.

Section ImportOne.
Context (B : Backend).
Implicit Types s : State B.

(** [importService] is [putFullService] on the entry found under the id,
    between two debug messages. *)
Lemma importService_run (serviceId : string) (importData : ServiceExportInterface)
    (entries : list (string * loc)) (clean : bool) s :
  service importData = Some entries ->
  let '(s1, r) :=
    putFullService B serviceId (property serviceId entries) clean
      (fst (debugMessage "ServiceOps.importService: start" s)) in
  let '(s', r') := importService B serviceId importData clean s in
  r' = r /\ heap s' = heap s1 /\ exchanges s' = exchanges s1 /\
  printed s' = printed s1.
Proof.
  intros Hsv. unfold importService. rewrite Hsv.
  unfold bind at 1. cbn [debugMessage fst]. unfold bind.
  destruct (putFullService B serviceId (property serviceId entries) clean _)
    as [s1 [v|e]]; cbn; auto.
Qed.

(** C7: within one import the parent write is settled before any child write
    is issued.  The requests before the parent write (those of the pre-clean)
    are no writes; the child writes come after it in the log; and when the
    parent write is rejected there is no child write, the import rejecting
    with the error of the parent write. *)
Theorem putFullService_parent_write_precedes_child_writes
    (serviceId : string) (ref : option loc) (clean : bool) (s : State B) :
  let '(s', r) := putFullService B serviceId ref clean s in
  exists before after,
    exchanges s' = (exchanges s ++ before ++ after)%list /\
    Forall (fun x : Exchange => is_put (fst x) = false) before /\
    match ref ≫= (fun l => heap s !! l) with
    | None => before = [] /\ after = []
    | Some o =>
        exists res children,
          after = (PutService serviceId (stripped o), res) :: children /\
          Forall (fun x : Exchange => is_child_put (fst x) = true) children /\
          (forall e, res = Rejected e -> children = [] /\ r = Rejected e)
    end.
Proof.
  destruct (ref ≫= (fun l => heap s !! l)) as [o|] eqn:Hobj.
  - destruct ref as [l|]; [|discriminate]. cbn in Hobj.
    pose proof (putFullService_run B serviceId l o clean s Hobj) as Hrun.
    destruct (putFullService B serviceId (Some l) clean s) as [s' r].
    destruct Hrun as (_ & before & res & children & He & Hb & Hc & Hres).
    exists before, ((PutService serviceId (stripped o), res) :: children).
    split; [exact He|]. split; [exact Hb|].
    exists res, children. split; [reflexivity|]. split; [exact Hc|].
    intros e ->. exact Hres.
  - pose proof (putFullService_undefined B serviceId ref clean s) as Hun.
    destruct (putFullService B serviceId ref clean s) as [s' r].
    destruct Hun as (He & _).
    { destruct ref as [l|]; [exact Hobj|exact I]. }
    exists [], []. rewrite app_nil_r. auto.
Qed.

(** C10: an entry without [nextDescendents] makes [putFullService] reject,
    and only after the parent write: when that write succeeded, the
    rejection is the [TypeError] of reading [length] of [undefined] (when it
    failed, it is the failure of the write).  An [importService] of such an
    entry rejects in the same way. *)
Theorem putFullService_without_nextDescendents_throws
    (serviceId : string) (l : loc) (o : FullService) (clean : bool)
    (s : State B) :
  heap s !! l = Some o ->
  nextDescendents o = None ->
  (let '(s', r) := putFullService B serviceId (Some l) clean s in
   exists before res,
     exchanges s' =
       (exchanges s ++ before ++ [(PutService serviceId (stripped o), res)])%list /\
     Forall (fun x : Exchange => is_put (fst x) = false) before /\
     match res with
     | Fulfilled _ =>
         r = Rejected (TypeError
                "Cannot read properties of undefined (reading 'length')")
     | Rejected e => r = Rejected e
     end) /\
  (forall importData entries,
     service importData = Some entries ->
     property serviceId entries = Some l ->
     let '(s', r) := importService B serviceId importData clean s in
     exists before res,
       exchanges s' =
         (exchanges s ++ before ++ [(PutService serviceId (stripped o), res)])%list /\
       match res with
       | Fulfilled _ =>
           r = Rejected (TypeError
                  "Cannot read properties of undefined (reading 'length')")
       | Rejected e => r = Rejected e
       end).
Proof.
  intros Hl Hnd.
  assert (Hput : forall s0 : State B, heap s0 !! l = Some o ->
            let '(s', r) := putFullService B serviceId (Some l) clean s0 in
            exists before res,
              exchanges s' =
                (exchanges s0 ++ before
                   ++ [(PutService serviceId (stripped o), res)])%list /\
              Forall (fun x : Exchange => is_put (fst x) = false) before /\
              match res with
              | Fulfilled _ =>
                  r = Rejected (TypeError
                         "Cannot read properties of undefined (reading 'length')")
              | Rejected e => r = Rejected e
              end).
  { intros s0 Hl0.
    pose proof (putFullService_run B serviceId l o clean s0 Hl0) as Hrun.
    destruct (putFullService B serviceId (Some l) clean s0) as [s' r].
    destruct Hrun as (_ & before & res & children & He & Hb & _ & Hres).
    exists before, res. rewrite Hnd in Hres.
    destruct res as [answer|e].
    - destruct Hres as (parent & _ & -> & ->). auto.
    - destruct Hres as (-> & ->). auto. }
  split; [exact (Hput s Hl)|].
  intros importData entries Hsv Hprop.
  pose proof (importService_run serviceId importData entries clean s Hsv) as Him.
  rewrite Hprop in Him.
  specialize (Hput (fst (debugMessage "ServiceOps.importService: start" s)) Hl).
  destruct (putFullService B serviceId (Some l) clean _) as [s1 r].
  destruct (importService B serviceId importData clean s) as [s' r'].
  destruct Him as (-> & _ & -> & _).
  destruct Hput as (before & res & He & _ & Hres).
  exists before, res. auto.
Qed.

Lemma putFullService_resolves (serviceId : string) (l : loc) (o : FullService)
    (clean : bool) s :
  heap s !! l = Some o ->
  resolves_as B serviceId o (putFullService B serviceId (Some l) clean s).
Proof.
  intros Hl.
  pose proof (putFullService_run B serviceId l o clean s Hl) as Hrun.
  destruct (putFullService B serviceId (Some l) clean s) as [s' r].
  destruct Hrun as (_ & before & res & children & He & _ & _ & Hres).
  intros v Hv. cbn [fst snd] in *. subst r.
  destruct res as [answer|e]; [|destruct Hres; discriminate].
  destruct Hres as (parent & -> & Hres).
  destruct (nextDescendents o) as [[|d ds]|].
  - destruct Hres as (_ & Hr). exists parent.
    split; [congruence|]. rewrite He.
    apply in_or_app. right. apply in_or_app. right. now left.
  - destruct Hres as (Hr & _). revert Hr. unfold members_outcome.
    destruct (omap unreadable (d :: ds)); congruence.
  - destruct Hres as (_ & Hr). discriminate.
Qed.

Lemma importService_resolves (serviceId : string)
    (importData : ServiceExportInterface) (entries : list (string * loc))
    (l : loc) (o : FullService) (clean : bool) s :
  service importData = Some entries ->
  property serviceId entries = Some l ->
  heap s !! l = Some o ->
  resolves_as B serviceId o (importService B serviceId importData clean s).
Proof.
  intros Hsv Hprop Hl.
  pose proof (importService_run serviceId importData entries clean s Hsv) as Him.
  rewrite Hprop in Him.
  pose proof (putFullService_resolves serviceId l o clean
                (fst (debugMessage "ServiceOps.importService: start" s)) Hl)
    as Hput.
  destruct (putFullService B serviceId (Some l) clean _) as [s1 r].
  destruct (importService B serviceId importData clean s) as [s' r'].
  destruct Him as (-> & _ & He & _).
  intros v Hv. specialize (Hput v Hv). cbn [fst snd] in *.
  rewrite He. exact Hput.
Qed.

Lemma importService_heap (serviceId : string)
    (importData : ServiceExportInterface) (entries : list (string * loc))
    (l : loc) (o : FullService) (clean : bool) s :
  service importData = Some entries ->
  property serviceId entries = Some l ->
  heap s !! l = Some o ->
  heap (fst (importService B serviceId importData clean s))
    = <[l := stripped o]> (heap s).
Proof.
  intros Hsv Hprop Hl.
  pose proof (importService_run serviceId importData entries clean s Hsv) as Him.
  rewrite Hprop in Him.
  pose proof (putFullService_run B serviceId l o clean
                (fst (debugMessage "ServiceOps.importService: start" s)) Hl)
    as Hrun.
  destruct (putFullService B serviceId (Some l) clean _) as [s1 r].
  destruct (importService B serviceId importData clean s) as [s' r'].
  destruct Him as (_ & Hh & _). destruct Hrun as (Hh1 & _).
  cbn [debugMessage fst heap] in *. congruence.
Qed.

Lemma In_omap {X Y} (f : X -> option Y) (xs : list X) (y : Y) :
  In y (omap f xs) -> In (Some y) (map f xs).
Proof.
  induction xs as [|x xs IH]; cbn; [tauto|].
  destruct (f x) as [y'|]; cbn; [intros [->|H]|]; auto.
Qed.

Lemma members_outcome_cases (nds : list Member) :
  if forallb has_type nds
  then members_outcome B nds = Fulfilled None
  else exists error,
         members_outcome B nds = Rejected error /\
         In (Some error) (map unreadable nds).
Proof.
  unfold members_outcome.
  destruct (forallb has_type nds) eqn:Hall.
  - apply omap_unreadable_nil in Hall. now rewrite Hall.
  - destruct (omap unreadable nds) as [|e es] eqn:Hun.
    + apply omap_unreadable_nil in Hun. congruence.
    + eexists. split; [reflexivity|].
      pose proof (first_rejection_In B e es) as Hin. rewrite <- Hun in Hin.
      now apply In_omap.
Qed.

Lemma putFullService_resolves_by_descendents (serviceId : string) (l : loc)
    (o : FullService) (clean : bool) s :
  heap s !! l = Some o ->
  resolves_by_descendents B serviceId o s
    (putFullService B serviceId (Some l) clean s).
Proof.
  intros Hl.
  pose proof (putFullService_run B serviceId l o clean s Hl) as Hrun.
  destruct (putFullService B serviceId (Some l) clean s) as [s' r].
  destruct Hrun as (_ & before & res & children & He & Hb & Hc & Hres).
  exists before, res, children. cbn [fst snd].
  split; [exact He|]. split; [exact Hb|]. split; [exact Hc|].
  destruct res as [answer|e]; [|exact (proj2 Hres)].
  destruct Hres as (parent & Ha & Hres). exists parent. split; [exact Ha|].
  destruct (nextDescendents o) as [[|d ds]|].
  - exact (proj2 Hres).
  - destruct Hres as (-> & _). apply members_outcome_cases.
  - destruct Hres as (_ & ->). reflexivity.
Qed.

(** C9: an import writes the parent, and when that write succeeded the
    descendents of the entry decide what it resolves to.  With at least one
    descendent, each with its [_type], it resolves to [undefined] ([None])
    and not to what the parent write was answered with; only with an empty
    list of descendents does it resolve to that answer.  It does not
    resolve at all when the parent write failed, when [nextDescendents] is
    missing, or when [_type._id] cannot be read of a descendent.  The same
    holds of [importService], which hands on the result of
    [putFullService]. *)
Theorem putFullService_resolves_to_undefined_with_descendents
    (serviceId : string) (l : loc) (o : FullService) (clean : bool)
    (s : State B) :
  heap s !! l = Some o ->
  resolves_by_descendents B serviceId o s
    (putFullService B serviceId (Some l) clean s) /\
  (forall importData entries,
     service importData = Some entries ->
     property serviceId entries = Some l ->
     resolves_by_descendents B serviceId o s
       (importService B serviceId importData clean s)).
Proof.
  intros Hl. split.
  - now apply putFullService_resolves_by_descendents.
  - intros importData entries Hsv Hprop.
    pose proof (importService_run serviceId importData entries clean s Hsv)
      as Him.
    rewrite Hprop in Him.
    pose proof (putFullService_resolves_by_descendents serviceId l o clean
                  (fst (debugMessage "ServiceOps.importService: start" s)) Hl)
      as Hput.
    destruct (putFullService B serviceId (Some l) clean _) as [s1 r].
    destruct (importService B serviceId importData clean s) as [s' r'].
    destruct Him as (-> & _ & He & _).
    destruct Hput as (before & res & children & Hex & Hrest).
    exists before, res, children. cbn [fst snd] in *.
    split; [rewrite He; exact Hex|exact Hrest].
Qed.

(** C3, as the code has it: an import works on the caller's entry through its
    reference and deletes [nextDescendents], [_rev] and [enabled] from it in
    place.  All other properties of the entry and all other objects are as
    they were, and what the import resolves to is the answer of the backend
    to the parent write, or [undefined]. *)
Theorem importService_strips_the_entry_in_place
    (serviceId : string) (l : loc) (o : FullService) (clean : bool)
    (s : State B) :
  heap s !! l = Some o ->
  heap (fst (putFullService B serviceId (Some l) clean s))
    = <[l := stripped o]> (heap s) /\
  (forall importData entries,
     service importData = Some entries ->
     property serviceId entries = Some l ->
     heap (fst (importService B serviceId importData clean s))
       = <[l := stripped o]> (heap s) /\
     resolves_as B serviceId o (importService B serviceId importData clean s)) /\
  nextDescendents (stripped o) = None /\
  fields (skeleton (stripped o)) !! "_rev" = None /\
  fields (skeleton (stripped o)) !! "enabled" = None /\
  (forall k : string, k <> "_rev" -> k <> "enabled" ->
     fields (skeleton (stripped o)) !! k = fields (skeleton o) !! k) /\
  (forall l', l' <> l -> (<[l := stripped o]> (heap s)) !! l' = heap s !! l').
Proof.
  intros Hl.
  split.
  { pose proof (putFullService_run B serviceId l o clean s Hl) as Hrun.
    destruct (putFullService B serviceId (Some l) clean s) as [s' r].
    exact (proj1 Hrun). }
  split.
  { intros importData entries Hsv Hprop. split.
    - now apply (importService_heap serviceId importData entries).
    - now apply (importService_resolves serviceId importData entries l). }
  split; [reflexivity|].
  cbn [stripped delete_field delete_nextDescendents skeleton fields].
  split; [rewrite lookup_delete_ne by discriminate; apply lookup_delete_eq|].
  split; [apply lookup_delete_eq|].
  split.
  - intros k Hrev Hen. now rewrite !lookup_delete_ne by congruence.
  - intros l' Hne. now apply lookup_insert_ne.
Qed.

(** C6: with [clean] set, whatever the outcome [r] of the pre-clean, the
    parent write is the next request after those of the pre-clean.  A
    pre-clean that fails with "not found" prints nothing, one that fails
    otherwise prints one line; whatever else the import prints are the
    reports of descendents that could not be created. *)
Theorem putFullService_creates_parent_after_any_preclean
    (serviceId : string) (l : loc) (o : FullService) (s : State B) :
  heap s !! l = Some o ->
  let '(s1, r) := deleteFullService B serviceId (at_preclean B serviceId l s) in
  let '(s', _) := putFullService B serviceId (Some l) true s in
  exists res children more,
    exchanges s' =
      (exchanges s1 ++ (PutService serviceId (stripped o), res) :: children)%list /\
    printed s' = (printed s ++ preclean_report serviceId r ++ more)%list /\
    Forall (fun line => exists d e, line = descendent_report serviceId d e) more.
Proof.
  intros Hl. rewrite (putFullService_phases B serviceId l o true s Hl).
  unfold bind, at_preclean.
  pose proof (putFullService_clean_run B serviceId (entered B serviceId l s))
    as Hrun.
  pose proof (deleteFullService_frame B serviceId
                (fst (debugMessage "ServiceOps.putFullService: clean"
                        (entered B serviceId l s)))) as Hfr.
  destruct (deleteFullService B serviceId _) as [s1 r].
  destruct (putFullService_clean B serviceId true (entered B serviceId l s))
    as [s2 r2].
  destruct Hrun as (-> & _ & _ & He & Hp).
  destruct Hfr as (_ & Hp1 & _). cbn in Hp1.
  pose proof (putFullService_create_run B serviceId (stripped o)
                (nextDescendents o) s2) as Hcr.
  destruct (putFullService_create B serviceId (stripped o) (nextDescendents o) s2)
    as [s' r'].
  destruct Hcr as (_ & res & children & more & He' & Hp' & Hm & _).
  exists res, children, more.
  split; [now rewrite He', He|].
  split; [now rewrite Hp', Hp, Hp1, <- app_assoc|exact Hm].
Qed.

End ImportOne.

Lemma putFullService_without_nextDescendents_throws_witness :
  heap (Demo.initial {[ 1%positive := Demo.entry None ]}) !! 1%positive
    = Some (Demo.entry None) /\
  nextDescendents (Demo.entry None) = None /\
  let s := Demo.initial {[ 1%positive := Demo.entry None ]} in
  let '(s', r) := putFullService Demo.backend "svc1" (Some 1%positive) false s in
  exists before res,
    exchanges s' =
      (exchanges s ++ before
         ++ [(PutService "svc1" (stripped (Demo.entry None)), res)])%list /\
    Forall (fun x : Exchange => is_put (fst x) = false) before /\
    match res with
    | Fulfilled _ =>
        r = Rejected (TypeError
               "Cannot read properties of undefined (reading 'length')")
    | Rejected e => r = Rejected e
    end.
Proof.
  split; [reflexivity|]. split; [reflexivity|].
  apply (putFullService_without_nextDescendents_throws
           Demo.backend "svc1" 1%positive (Demo.entry None) false
           (Demo.initial {[ 1%positive := Demo.entry None ]}));
    reflexivity.
Defined.

Lemma putFullService_resolves_to_undefined_with_descendents_witness :
  heap (Demo.initial Demo.objects) !! 1%positive
    = Some (Demo.entry (Some [Demo.c1; Demo.c2])) /\
  resolves_by_descendents Demo.backend "svc1"
    (Demo.entry (Some [Demo.c1; Demo.c2])) (Demo.initial Demo.objects)
    (putFullService Demo.backend "svc1" (Some 1%positive) true
       (Demo.initial Demo.objects)).
Proof.
  split; [reflexivity|].
  exact (proj1 (putFullService_resolves_to_undefined_with_descendents
                  Demo.backend "svc1" 1%positive
                  (Demo.entry (Some [Demo.c1; Demo.c2])) true
                  (Demo.initial Demo.objects) eq_refl)).
Defined.

Lemma importService_strips_the_entry_in_place_witness :
  heap (Demo.initial Demo.objects) !! 1%positive
    = Some (Demo.entry (Some [Demo.c1; Demo.c2])) /\
  heap (fst (putFullService Demo.backend "svc1" (Some 1%positive) false
               (Demo.initial Demo.objects)))
    = <[1%positive := stripped (Demo.entry (Some [Demo.c1; Demo.c2]))]>
        (heap (Demo.initial Demo.objects)).
Proof.
  split; [reflexivity|].
  exact (proj1 (importService_strips_the_entry_in_place
                  Demo.backend "svc1" 1%positive
                  (Demo.entry (Some [Demo.c1; Demo.c2])) false
                  (Demo.initial Demo.objects) eq_refl)).
Defined.

(** C3 as stated fails: after the import of [svc1] the caller's entry has
    lost [nextDescendents] and [_rev]; the envelope is not as it was. *)
Lemma importService_mutates_the_envelope_entry :
  let s := Demo.initial Demo.objects in
  let '(s', _) := importService Demo.backend "svc1" Demo.envelope false s in
  (nextDescendents <$> heap s !! 1%positive)
    = Some (Some [WithType Demo.c1; WithType Demo.c2]) /\
  (nextDescendents <$> heap s' !! 1%positive) = Some None /\
  ((fun o => fields (skeleton o) !! "_rev") <$> heap s !! 1%positive)
    = Some (Some (JStr "7")) /\
  ((fun o => fields (skeleton o) !! "_rev") <$> heap s' !! 1%positive)
    = Some None /\
  heap s' <> heap s.
Proof.
  vm_compute. repeat (split; [reflexivity|]).
  intros H. discriminate H.
Qed.

Lemma putFullService_creates_parent_after_any_preclean_witness :
  heap (Demo.initial Demo.objects) !! 1%positive
    = Some (Demo.entry (Some [Demo.c1; Demo.c2])) /\
  let s := Demo.initial Demo.objects in
  let o := Demo.entry (Some [Demo.c1; Demo.c2]) in
  let '(s1, r) :=
    deleteFullService Demo.backend "svc1"
      (at_preclean Demo.backend "svc1" 1%positive s) in
  let '(s', _) := putFullService Demo.backend "svc1" (Some 1%positive) true s in
  exists res children more,
    exchanges s' =
      (exchanges s1 ++ (PutService "svc1" (stripped o), res) :: children)%list /\
    printed s' = (printed s ++ preclean_report "svc1" r ++ more)%list /\
    Forall (fun line => exists d e, line = descendent_report "svc1" d e) more.
Proof.
  split; [reflexivity|].
  apply (putFullService_creates_parent_after_any_preclean
           Demo.backend "svc1" 1%positive
           (Demo.entry (Some [Demo.c1; Demo.c2])) (Demo.initial Demo.objects)).
  reflexivity.
Defined.

(** ** Exporting all services *)

Section GetFullServices.
Context (B : Backend).
Implicit Types s : State B.

Lemma omap_id_map {X Y} (f : X -> option Y) (xs : list X) :
  omap id (map f xs) = omap f xs.
Proof.
  induction xs as [|x xs IH]; cbn; [reflexivity|].
  destruct (f x); cbn; now rewrite IH.
Qed.

(** One item of the batch: both fetches are issued; the item never rejects. *)
Lemma getFullServices_item_run (listItem : AmServiceSkeleton) s :
  let '(w1, r1) := api_getService B (service_id listItem) (world s) in
  let '(w2, r2) := api_getServiceDescendents B (service_id listItem) w1 in
  let out := settle_both B r1 r2 in
  let '(s', r) := getFullServices_item B listItem s in
  r = Fulfilled (succeeded_entry out) /\
  world s' = w2 /\
  printed s' =
    (printed s ++ match failure_entry listItem out with
                  | Some line => [line]
                  | None => []
                  end)%list.
Proof.
  unfold getFullServices_item, try_catch, bind, promise_all2,
    getService, getServiceDescendents, request.
  destruct (api_getService B (service_id listItem) (world s)) as [w1 r1].
  cbn [world].
  destruct (api_getServiceDescendents B (service_id listItem) w1) as [w2 r2].
  cbv zeta.
  destruct (settle_both B r1 r2) as [[service nds]|e]; cbn.
  - rewrite app_nil_r. auto.
  - unfold is_capability_gap.
    destruct (status_is 403 e && message_is capability_gap e); cbn.
    + rewrite app_nil_r. auto.
    + auto.
Qed.

Lemma all_settled_items (serviceList : list AmServiceSkeleton) s :
  let outcomes := fetch_outcomes B serviceList (world s) in
  let '(s', rs) := all_settled (map (getFullServices_item B) serviceList) s in
  rejections rs = [] /\
  fulfilments rs = map succeeded_entry outcomes /\
  length outcomes = length serviceList /\
  printed s' =
    (printed s
       ++ omap (fun p => failure_entry (fst p) (snd p))
               (zip serviceList outcomes))%list.
Proof.
  revert s. induction serviceList as [|listItem serviceList IH]; intros s;
    cbn [map all_settled fetch_outcomes].
  - cbn. rewrite app_nil_r. auto.
  - pose proof (getFullServices_item_run listItem s) as Hitem.
    destruct (api_getService B (service_id listItem) (world s)) as [w1 r1].
    destruct (api_getServiceDescendents B (service_id listItem) w1) as [w2 r2].
    cbv zeta in Hitem |- *.
    destruct (getFullServices_item B listItem s) as [s1 r].
    destruct Hitem as (-> & Hw & Hp).
    specialize (IH s1). rewrite Hw in IH. cbv zeta in IH.
    destruct (all_settled (map (getFullServices_item B) serviceList) s1)
      as [s2 rs].
    destruct IH as (Hr & Hf & Hl & Hp2).
    cbn [rejections fulfilments map length zip zip_with omap list_omap fst snd].
    split; [exact Hr|]. split; [now rewrite Hf|]. split; [now rewrite Hl|].
    rewrite Hp2, Hp, <- app_assoc.
    destruct (failure_entry listItem (settle_both B r1 r2)); reflexivity.
Qed.

(** C4: in a batch export the result holds one entry for every item whose
    two fetches succeeded, and one failure is printed for every item whose
    fetch failed otherwise than with the capability gap; an item whose fetch
    fails with the capability gap (403 and the exact message) contributes to
    neither, and no failure removes the entry of another item. *)
Theorem getFullServices_filters_capability_gap
    (serviceList : list AmServiceSkeleton) (w1 : World B) (s : State B) :
  api_getListOfServices B (world s) = (w1, Fulfilled serviceList) ->
  let outcomes := fetch_outcomes B serviceList w1 in
  let '(s', r) := getFullServices B s in
  length outcomes = length serviceList /\
  r = Fulfilled (omap succeeded_entry outcomes) /\
  printed s' =
    (printed s
       ++ omap (fun p => failure_entry (fst p) (snd p))
               (zip serviceList outcomes))%list /\
  (forall listItem error,
     is_capability_gap error = true ->
     succeeded_entry (Rejected error) = None /\
     failure_entry listItem (Rejected error) = None) /\
  (forall listItem error,
     is_capability_gap error = false ->
     succeeded_entry (Rejected error) = None /\
     failure_entry listItem (Rejected error)
       = Some ("Unable to retrieve data for " +:+ service_id listItem
                 +:+ " with error: " +:+ show (response_message error),
               "error")).
Proof.
  intros Hlist. cbv zeta.
  unfold getFullServices, bind at 1 2.
  cbn [debugMessage]. unfold _getListOfServices, request.
  cbn [world]. rewrite Hlist. unfold bind at 1, promise_all.
  match goal with
  | |- context [all_settled _ ?s1] =>
      pose proof (all_settled_items serviceList s1) as Hall;
      destruct (all_settled (map (getFullServices_item B) serviceList) s1)
        as [s2 rs]
  end.
  cbn [world] in Hall. cbv zeta in Hall.
  destruct Hall as (Hr & Hf & Hl & Hp).
  unfold settle_all. rewrite Hr, Hf. cbn.
  split; [exact Hl|]. split; [now rewrite omap_id_map|].
  split; [exact Hp|].
  split; intros listItem error Hgap; cbn; rewrite Hgap; auto.
Qed.

End GetFullServices.

Lemma getFullServices_filters_capability_gap_witness :
  api_getListOfServices Demo.backend (world (Demo.initial ∅))
    = (1%nat, Fulfilled [Demo.svc "svc1"; Demo.svc "svc2"; Demo.svc "svc3"]) /\
  let serviceList := [Demo.svc "svc1"; Demo.svc "svc2"; Demo.svc "svc3"] in
  let outcomes := fetch_outcomes Demo.backend serviceList 1%nat in
  let '(s', r) := getFullServices Demo.backend (Demo.initial ∅) in
  length outcomes = length serviceList /\
  r = Fulfilled (omap succeeded_entry outcomes) /\
  printed s' =
    (printed (Demo.initial ∅)
       ++ omap (fun p => failure_entry (fst p) (snd p))
               (zip serviceList outcomes))%list.
Proof.
  split; [reflexivity|].
  pose proof (getFullServices_filters_capability_gap Demo.backend
                [Demo.svc "svc1"; Demo.svc "svc2"; Demo.svc "svc3"] 1%nat
                (Demo.initial ∅) eq_refl) as H.
  cbv zeta in H |- *.
  destruct (getFullServices Demo.backend (Demo.initial ∅)) as [s' r].
  destruct H as (Hl & Hr & Hp & _). auto.
Defined.

(** ** Importing a batch *)

Section PutFullServices.
Context (B : Backend) (JSON_stringify : jsval -> string).
Implicit Types s : State B.





End PutFullServices.

(** ** Runs on the concrete backend *)

(** A batch export over [svc1], [svc2] (capability gap) and [svc3] (a plain
    failure): all six fetches are issued, one failure is printed, one entry
    is returned. *)
Example getFullServices_run :
  let '(s', r) := getFullServices Demo.backend (Demo.initial ∅) in
  sent s' =
    [ GetListOfServices;
      GetService "svc1"; GetServiceDescendents "svc1";
      GetService "svc2"; GetServiceDescendents "svc2";
      GetService "svc3"; GetServiceDescendents "svc3" ] /\
  printed s' =
    [("Unable to retrieve data for svc3 with error: Internal Server Error",
      "error")] /\
  r = Fulfilled [ {| skeleton := Demo.svc "svc1";
                     nextDescendents :=
                       Some [WithType Demo.c1; WithType Demo.c2] |} ].
Proof. vm_compute. repeat split. Qed.

(** A clean batch import of three entries, the second of which is refused:
    the first and the third are imported, and the first, which has
    descendents, contributes [undefined] to the results. *)
Example importServices_run :
  let '(s', r) :=
    importServices Demo.backend (fun _ => "") Demo.envelope true
                   (Demo.initial Demo.objects) in
  printed s' =
    [ ("Error deleting service 'svc1' before import: Internal Server Error",
       "error");
      ("Imported: svc1", "info");
      ("Import service 'bad': Bad Request", "error");
      ("Imported: svc4", "info") ] /\
  r = Fulfilled [None; Some (skeleton (stripped (Demo.entry (Some []))))].
Proof. vm_compute. repeat split. Qed.

(** A pre-clean that meets "not found" prints nothing, and the parent is
    written. *)
Example putFullService_preclean_not_found_run :
  let '(s', r) :=
    putFullService Demo.backend "ghost" (Some 2%positive) true
                   (Demo.initial Demo.objects) in
  sent s' = [ GetServiceDescendents "ghost";
              PutService "ghost" (stripped (Demo.entry (Some []))) ] /\
  printed s' = [] /\
  is_fulfilled r = true.
Proof. vm_compute. repeat split. Qed.

(** Two imports without pre-clean: the entry with descendents resolves to
    [undefined], the entry with an empty list of them to the answer of the
    parent write. *)
Example putFullService_resolves_run :
  snd (putFullService Demo.backend "svc1" (Some 1%positive) false
         (Demo.initial Demo.objects))
    = Fulfilled None /\
  snd (putFullService Demo.backend "svc4" (Some 3%positive) false
         (Demo.initial Demo.objects))
    = Fulfilled (Some (skeleton (stripped (Demo.entry (Some []))))).
Proof. vm_compute. repeat split. Qed.

(** An import of an entry whose second descendent has no [_type]: the parent
    and the first descendent are written, nothing is requested for the
    second, and the import rejects. *)
Example putFullService_member_without_type_run :
  let '(s', r) :=
    putFullService Demo.backend "svc1" (Some 1%positive) false
                   (Demo.initial {[ 1%positive := Demo.edited ]}) in
  sent s' = [ PutService "svc1" (stripped Demo.edited);
              PutServiceNextDescendent "svc1" "a" "c1" Demo.c1 ] /\
  r = Rejected (TypeError "Cannot read properties of undefined (reading '_id')").
Proof. vm_compute. repeat split. Qed.

Example convertBase64TextToArray_run :
  convertBase64TextToArray
    (String "a" (String newline (String "b" (String newline EmptyString))))
    = ["a"; "b"; ""]%string.
Proof. reflexivity. Qed.

(** ** Exporting services *)

Section ExportServices.
Context (B : Backend).
Implicit Types s : State B.

Lemma sent_app s (xs : list Exchange) (s' : State B) :
  exchanges s' = (exchanges s ++ xs)%list ->
  sent s' = (sent s ++ map fst xs)%list.
Proof. intros H. unfold sent. now rewrite H, map_app. Qed.

(** What a successful [exportService] leaves in the envelope and in the log. *)
Lemma exportService_exports_one_or_nothing_aux (serviceId : string) s :
  let '(w1, r1) := api_getService B serviceId (world s) in
  let '(w2, r2) := api_getServiceDescendents B serviceId w1 in
  let '(s', r) := exportService B serviceId s in
  forall exportData, r = Fulfilled exportData ->
    match r1, r2 with
    | Fulfilled service, Fulfilled descendents =>
        export_service exportData =
          {[ serviceId :=
               {| skeleton := service;
                  nextDescendents := Some (map WithType descendents) |} ]} /\
        In (GetService serviceId, Fulfilled (Service service)) (exchanges s') /\
        In (GetServiceDescendents serviceId, Fulfilled (Descendents descendents))
           (exchanges s')
    | _, _ => export_service exportData = ∅ /\ True
    end.
Proof.
  unfold exportService, bind at 1 2, try_catch, bind at 1.
  cbn [debugMessage]. unfold getService, request at 1. cbn [world].
  destruct (api_getService B serviceId (world s)) as [w1 [service|e]].
  - unfold bind at 1, getServiceDescendents, request. cbn [world].
    destruct (api_getServiceDescendents B serviceId w1) as [w2 [nds|e]];
      cbn; intros exportData [= <-]; cbn; (split; [reflexivity|]); auto.
    split; apply in_or_app.
    + left. apply in_or_app. right. now left.
    + right. now left.
  - destruct (api_getServiceDescendents B serviceId w1) as [w2 r2].
    cbn. intros exportData [= <-]. auto.
Qed.





Lemma getFullServices_item_sent (listItem : AmServiceSkeleton) s :
  let '(s', r) := getFullServices_item B listItem s in
  sent s' = (sent s ++ fetch_requests listItem)%list.
Proof.
  unfold getFullServices_item, try_catch, bind, promise_all2,
    getService, getServiceDescendents, request.
  destruct (api_getService B (service_id listItem) (world s)) as [w1 r1].
  cbn [world].
  destruct (api_getServiceDescendents B (service_id listItem) w1) as [w2 r2].
  destruct (settle_both B r1 r2) as [[service nds]|e]; cbn.
  - unfold sent. cbn. rewrite !map_app, <- app_assoc. reflexivity.
  - destruct (negb _); cbn; unfold sent; cbn;
      rewrite !map_app, <- app_assoc; reflexivity.
Qed.

Lemma all_settled_items_sent (serviceList : list AmServiceSkeleton) s :
  let '(s', rs) := all_settled (map (getFullServices_item B) serviceList) s in
  sent s' = (sent s ++ flat_map fetch_requests serviceList)%list.
Proof.
  revert s. induction serviceList as [|x xs IH]; intros s;
    cbn [map all_settled flat_map].
  - now rewrite app_nil_r.
  - pose proof (getFullServices_item_sent x s) as Hx.
    destruct (getFullServices_item B x s) as [s1 r].
    specialize (IH s1).
    destruct (all_settled (map (getFullServices_item B) xs) s1) as [s2 rs].
    rewrite IH, Hx, <- app_assoc. reflexivity.
Qed.

(** X3: [getFullServices] rejects when the services cannot be listed, and
    then asks for nothing else.  Otherwise it fulfils, and it has asked for
    every listed service and for its descendents, in the order of the list,
    whatever became of the requests before. *)
Theorem getFullServices_fetches_every_listed_service (s : State B) :
  let '(w1, r1) := api_getListOfServices B (world s) in
  let '(s', r) := getFullServices B s in
  match r1 with
  | Rejected error =>
      r = Rejected error /\
      sent s' = (sent s ++ [GetListOfServices])%list /\
      printed s' = printed s
  | Fulfilled serviceList =>
      is_fulfilled r = true /\
      sent s' =
        (sent s ++ GetListOfServices
           :: flat_map fetch_requests serviceList)%list
  end.
Proof.
  unfold getFullServices, bind at 1 2.
  cbn [debugMessage]. unfold _getListOfServices, request. cbn [world].
  destruct (api_getListOfServices B (world s)) as [w1 [serviceList|e]].
  - unfold bind at 1, promise_all.
    match goal with
    | |- context [all_settled _ ?s1] =>
        pose proof (all_settled_items_sent serviceList s1) as Hsent;
        pose proof (all_settled_items B serviceList s1) as Hall;
        destruct (all_settled (map (getFullServices_item B) serviceList) s1)
          as [s2 rs]
    end.
    cbv zeta in Hall. destruct Hall as (Hr & _).
    unfold settle_all. rewrite Hr. cbn.
    split; [reflexivity|].
    unfold sent in *. cbn in *. rewrite Hsent, map_app, <- app_assoc.
    reflexivity.
  - cbn. unfold sent. cbn. rewrite map_app. auto.
Qed.

End ExportServices.

(** ** Deleting a tree that cannot be listed *)

Section DeleteServices.
Context (B : Backend).
Implicit Types s : State B.

(** When the descendents of a service cannot be listed,
    [deleteFullService] deletes nothing: the listing is its only request and
    its error is what the function rejects with. *)
Lemma deleteFullService_unlisted
    (serviceId : string) (s : State B) (w1 : World B) (error : JsError) :
  api_getServiceDescendents B serviceId (world s) = (w1, Rejected error) ->
  let '(s', r) := deleteFullService B serviceId s in
  r = Rejected error /\
  exchanges s' =
    (exchanges s ++ [(GetServiceDescendents serviceId, Rejected error)])%list /\
  world s' = w1.
Proof.
  intros Hlist.
  unfold deleteFullService, bind, getServiceDescendents, request.
  rewrite Hlist. cbn. auto.
Qed.

End DeleteServices.

(** ** More on the import of one service *)

Section ImportOneMore.
Context (B : Backend).
Implicit Types s : State B.


(** X7: without [clean] an import reads and deletes nothing on the backend:
    its first request is the parent write, answered by the backend as it
    was when the import began, and nothing is printed but the reports of
    descendents. *)
Theorem putFullService_without_clean_writes_at_once
    (serviceId : string) (l : loc) (o : FullService) (s : State B) :
  heap s !! l = Some o ->
  let '(s', r) := putFullService B serviceId (Some l) false s in
  exists res children more,
    exchanges s' =
      (exchanges s ++ (PutService serviceId (stripped o), res) :: children)%list /\
    Forall (fun x : Exchange => is_child_put (fst x) = true) children /\
    res = settled_map Service
            (snd (api_putService B serviceId (stripped o) (world s))) /\
    printed s' = (printed s ++ more)%list /\
    Forall (fun line => exists d e, line = descendent_report serviceId d e) more.
Proof.
  intros Hl. rewrite (putFullService_phases B serviceId l o false s Hl).
  unfold bind at 1. cbn [putFullService_clean ret].
  pose proof (putFullService_create_run B serviceId (stripped o)
                (nextDescendents o) (entered B serviceId l s)) as Hcr.
  pose proof (putFullService_create_first B serviceId (stripped o)
                (nextDescendents o) (entered B serviceId l s)) as Hfirst.
  destruct (putFullService_create B serviceId (stripped o) (nextDescendents o)
              (entered B serviceId l s)) as [s' r].
  destruct Hcr as (_ & res & children & more & He & Hp & Hm & Hc & _).
  destruct Hfirst as [children' Hfirst].
  cbn [fst entered exchanges printed world] in *.
  exists res, children, more.
  split; [exact He|]. split; [exact Hc|].
  split; [|split; [exact Hp|exact Hm]].
  rewrite He in Hfirst. apply app_inv_head in Hfirst. congruence.
Qed.

Lemma stripped_idempotent (o : FullService) : stripped (stripped o) = stripped o.
Proof.
  destruct o as [[id ty fs] nds].
  unfold stripped, delete_field, delete_nextDescendents. cbn. f_equal. f_equal.
  apply map_eq. intros k. rewrite !lookup_delete.
  repeat case_decide; reflexivity.
Qed.

(** X8: an entry can be imported once.  A second import through the same
    envelope finds the entry without [nextDescendents]: it writes the parent
    again, writes no descendent, and rejects, with the [TypeError] of
    reading [length] of [undefined] when the parent write succeeded. *)
Theorem importService_twice_rejects
    (serviceId : string) (importData : ServiceExportInterface)
    (entries : list (string * loc)) (l : loc) (o : FullService)
    (clean clean' : bool) (s : State B) :
  service importData = Some entries ->
  property serviceId entries = Some l ->
  heap s !! l = Some o ->
  let '(s1, _) := importService B serviceId importData clean s in
  let '(s2, r2) := importService B serviceId importData clean' s1 in
  heap s2 = heap s1 /\
  exists before res,
    exchanges s2 =
      (exchanges s1 ++ before
         ++ [(PutService serviceId (stripped o), res)])%list /\
    Forall (fun x : Exchange => is_put (fst x) = false) before /\
    match res with
    | Fulfilled _ =>
        r2 = Rejected (TypeError
                "Cannot read properties of undefined (reading 'length')")
    | Rejected error => r2 = Rejected error
    end.
Proof.
  intros Hsv Hprop Hl.
  pose proof (importService_heap B serviceId importData entries l o clean s
                Hsv Hprop Hl) as Hh1.
  destruct (importService B serviceId importData clean s) as [s1 r1].
  cbn [fst] in Hh1.
  assert (Hl1 : heap s1 !! l = Some (stripped o))
    by (rewrite Hh1; apply lookup_insert_eq).
  pose proof (importService_run B serviceId importData entries clean' s1 Hsv)
    as Him.
  rewrite Hprop in Him.
  pose proof (putFullService_run B serviceId l (stripped o) clean'
                (fst (debugMessage "ServiceOps.importService: start" s1)) Hl1)
    as Hrun.
  destruct (putFullService B serviceId (Some l) clean' _) as [s1' r].
  destruct (importService B serviceId importData clean' s1) as [s2 r2].
  destruct Him as (-> & Hh & He & _).
  destruct Hrun as (Hh' & before & res & children & He' & Hb & _ & Hres).
  rewrite stripped_idempotent in *. cbn [debugMessage fst heap exchanges] in *.
  split.
  { rewrite Hh, Hh', Hh1. apply map_eq. intros i.
    destruct (decide (i = l)) as [->|Hne].
    - now rewrite !lookup_insert_eq.
    - now rewrite !lookup_insert_ne by congruence. }
  exists before, res. split; [|split; [exact Hb|]].
  - rewrite He, He'. destruct res as [answer|e].
    + destruct Hres as (parent & _ & -> & _). reflexivity.
    + destruct Hres as (-> & _). reflexivity.
  - destruct res as [answer|e].
    + destruct Hres as (parent & _ & _ & ->). reflexivity.
    + destruct Hres as (_ & ->). reflexivity.
Qed.

(** X9: an import under an id that the envelope does not hold, and that is
    not the name of a property that every object inherits, rejects with a
    [TypeError] before anything is done: no request is sent, nothing is
    printed and no object is changed. *)
Theorem importService_of_missing_id_does_nothing
    (serviceId : string) (importData : ServiceExportInterface)
    (entries : list (string * loc)) (clean : bool) (s : State B) :
  service importData = Some entries ->
  property serviceId entries = None ->
  inherited serviceId = false ->
  let '(s', r) := importService B serviceId importData clean s in
  r = Rejected (TypeError
         "Cannot read properties of undefined (reading 'nextDescendents')") /\
  exchanges s' = exchanges s /\ heap s' = heap s /\ printed s' = printed s /\
  world s' = world s.
Proof.
  intros Hsv Hprop _. unfold importService. rewrite Hsv, Hprop.
  unfold bind at 1. cbn [debugMessage]. unfold bind at 1.
  unfold putFullService, bind at 1 2. cbn. auto.
Qed.

End ImportOneMore.

(** ** Export and import together, and the pre-clean of what is not there *)

Section ExportImport.
Context (B : Backend).
Implicit Types s : State B.

(** X4: a clean import of a service whose descendents cannot be listed
    deletes nothing: its requests are the listing, which fails, and then the
    parent write and what follows it; what the pre-clean prints is the one
    line for a failure other than "not found", or nothing. *)
Theorem putFullService_clean_of_unlisted_deletes_nothing
    (serviceId : string) (l : loc) (o : FullService) (s : State B)
    (w1 : World B) (error : JsError) :
  heap s !! l = Some o ->
  api_getServiceDescendents B serviceId (world s) = (w1, Rejected error) ->
  let '(s', r) := putFullService B serviceId (Some l) true s in
  exists res children more,
    exchanges s' =
      (exchanges s
         ++ (GetServiceDescendents serviceId, Rejected error)
         :: (PutService serviceId (stripped o), res) :: children)%list /\
    res = settled_map Service (snd (api_putService B serviceId (stripped o) w1)) /\
    Forall (fun x : Exchange => is_child_put (fst x) = true) children /\
    printed s' =
      (printed s ++ preclean_report serviceId (Rejected error) ++ more)%list /\
    Forall (fun line => exists d e, line = descendent_report serviceId d e) more.
Proof.
  intros Hl Hlist. rewrite (putFullService_phases B serviceId l o true s Hl).
  unfold bind at 1.
  pose proof (putFullService_clean_run B serviceId (entered B serviceId l s))
    as Hrun.
  pose proof (deleteFullService_unlisted B serviceId
                (fst (debugMessage "ServiceOps.putFullService: clean"
                        (entered B serviceId l s))) w1 error Hlist) as Hdel.
  pose proof (deleteFullService_frame B serviceId
                (fst (debugMessage "ServiceOps.putFullService: clean"
                        (entered B serviceId l s)))) as Hfr.
  destruct (deleteFullService B serviceId _) as [s1 r1].
  destruct Hdel as (-> & He1 & Hw1).
  destruct (putFullService_clean B serviceId true (entered B serviceId l s))
    as [s2 r2].
  destruct Hrun as (-> & Hw & _ & He & Hp).
  destruct Hfr as (_ & Hp1 & _).
  cbn [debugMessage fst entered exchanges printed] in He1, Hp1.
  pose proof (putFullService_create_run B serviceId (stripped o)
                (nextDescendents o) s2) as Hcr.
  pose proof (putFullService_create_first B serviceId (stripped o)
                (nextDescendents o) s2) as Hfirst.
  destruct (putFullService_create B serviceId (stripped o) (nextDescendents o)
              s2) as [s' r].
  destruct Hcr as (_ & res & children & more & He' & Hp' & Hm & Hc & _).
  destruct Hfirst as [children' Hfirst]. cbn [fst] in Hfirst.
  rewrite Hw, Hw1 in Hfirst.
  exists res, children, more.
  split; [rewrite He', He, He1, <- !app_assoc; reflexivity|].
  split.
  { rewrite He' in Hfirst. apply app_inv_head in Hfirst. congruence. }
  split; [exact Hc|].
  split; [rewrite Hp', Hp, Hp1, <- !app_assoc; reflexivity|exact Hm].
Qed.

(** X10: what [exportService] exported can be imported as it was fetched:
    the parent is written with the fields the backend answered, less [_rev]
    and [enabled], and, when that write succeeds, every descendent the
    backend answered is written, in the order of the answer. *)
Theorem exported_service_is_imported_as_fetched
    (serviceId : string) (s s1 : State B) (exportData : ServiceExport)
    (entry : FullService) (l : loc) (clean : bool) (s2 : State B) :
  exportService B serviceId s = (s1, Fulfilled exportData) ->
  export_service exportData !! serviceId = Some entry ->
  heap s2 !! l = Some entry ->
  exists fetched descendents,
    In (GetService serviceId, Fulfilled (Service fetched)) (exchanges s1) /\
    In (GetServiceDescendents serviceId, Fulfilled (Descendents descendents))
       (exchanges s1) /\
    let payload :=
      {| skeleton :=
           {| service_id := service_id fetched;
              service_type_id := service_type_id fetched;
              fields := delete "enabled" (delete "_rev" (fields fetched)) |};
         nextDescendents := None |} in
    let '(s', r) := putFullService B serviceId (Some l) clean s2 in
    exists before res,
      Forall (fun x : Exchange => is_put (fst x) = false) before /\
      match res with
      | Rejected error =>
          r = Rejected error /\
          exchanges s' =
            (exchanges s2 ++ before
               ++ [(PutService serviceId payload, res)])%list
      | Fulfilled _ =>
          is_fulfilled r = true /\
          exists outcomes,
            length outcomes = length descendents /\
            exchanges s' =
              (exchanges s2 ++ before
                 ++ (PutService serviceId payload, res)
                 :: zip (map (child_put serviceId) descendents) outcomes)%list
      end.
Proof.
  intros Hexp Hentry Hl.
  pose proof (exportService_exports_one_or_nothing_aux B serviceId s) as Hx.
  destruct (api_getService B serviceId (world s)) as [w1 r1].
  destruct (api_getServiceDescendents B serviceId w1) as [w2 r2].
  rewrite Hexp in Hx. specialize (Hx exportData eq_refl).
  assert (Hmap : export_service exportData !! serviceId = Some entry)
    by exact Hentry.
  destruct r1 as [fetched|e1]; [destruct r2 as [descendents|e2]|];
    destruct Hx as (Hx & Hin);
    try (rewrite Hx, lookup_empty in Hentry; discriminate).
  rewrite Hx, lookup_singleton_eq in Hentry.
  injection Hentry as <-. destruct Hin as (Hin1 & Hin2).
  exists fetched, descendents. split; [exact Hin1|]. split; [exact Hin2|].
  cbv zeta.
  pose proof (putFullService_run B serviceId l _ clean s2 Hl) as Hrun.
  destruct (putFullService B serviceId (Some l) clean s2) as [s' r].
  destruct Hrun as (_ & before & res & children & He & Hb & _ & Hres).
  exists before, res. split; [exact Hb|].
  cbn [nextDescendents] in Hres.
  change (stripped {| skeleton := fetched;
                      nextDescendents := Some (map WithType descendents) |})
    with {| skeleton :=
              {| service_id := service_id fetched;
                 service_type_id := service_type_id fetched;
                 fields := delete "enabled" (delete "_rev" (fields fetched)) |};
            nextDescendents := None |} in He.
  destruct res as [answer|e].
  - destruct Hres as (parent & _ & Hres). destruct descendents as [|d ds].
    + destruct Hres as (-> & ->). split; [reflexivity|]. exists []. auto.
    + cbn [map] in Hres.
      change (WithType d :: map WithType ds)
        with (map WithType (d :: ds)) in Hres.
      unfold members_outcome in Hres.
      rewrite omap_typed_WithType, omap_unreadable_WithType in Hres.
      destruct Hres as (-> & outs & Hlen & ->). split; [reflexivity|].
      exists outs. auto.
  - destruct Hres as (-> & ->). auto.
Qed.

End ExportImport.

Section CreateOrUpdateScriptFacts.
Context (B : Backend) (applyNameCollisionPolicy : string -> string).

(** With enough fuel for the conflicts there are, the call returns. *)
Lemma createOrUpdateScript_retries_after_every_conflict_aux
    (k fuel : nat) (id : string) (data : ScriptSkeleton) (s : State B) :
  conflicts B applyNameCollisionPolicy k id data (world s) = true ->
  (k < fuel)%nat ->
  exists st data',
    snd (createOrUpdateScript B applyNameCollisionPolicy fuel id data s)
      = Fulfilled (Some (st, data')).
Proof.
  revert fuel data s.
  induction k as [|k IH]; intros fuel data s Hc Hf;
    (destruct fuel as [|fuel]; [lia|]);
    cbn [createOrUpdateScript conflicts] in *;
    unfold try_catch, bind, putScript in *; unfold request at 1;
    destruct (api_putScript B id data (world s)) as [w1 [a|e]];
    cbn [fst snd] in *; try discriminate.
  - cbn. eauto.
  - apply negb_true_iff in Hc. rewrite Hc. cbn. eauto.
  - apply andb_true_iff in Hc. destruct Hc as [H409 Hc]. rewrite H409.
    unfold printMessage at 1 2. cbv beta iota.
    match goal with
    | |- context [createOrUpdateScript _ _ fuel id ?d ?s1] =>
        specialize (IH fuel d s1 Hc ltac:(lia));
        destruct (createOrUpdateScript B applyNameCollisionPolicy fuel id d s1)
          as [s2 r2]
    end.
    cbn [snd] in IH. destruct IH as (st & d' & ->). cbn. eauto.
Qed.

End CreateOrUpdateScriptFacts.

(** ** More on the creation of a script *)

Section CreateOrUpdateScriptMore.
Context (B : Backend) (applyNameCollisionPolicy : string -> string).
Implicit Types s : State B.

(** X11: [createOrUpdateScript] never rejects: whatever the writes are
    answered with, it ends with a status (or, its fuel used up, is still
    retrying). *)
Theorem createOrUpdateScript_never_rejects
    (fuel : nat) (id : string) (data : ScriptSkeleton) (s : State B) :
  is_fulfilled
    (snd (createOrUpdateScript B applyNameCollisionPolicy fuel id data s))
  = true.
Proof.
  revert data s. induction fuel as [|fuel IH]; intros data s; [reflexivity|].
  cbn [createOrUpdateScript]. unfold try_catch, bind, putScript.
  unfold request at 1.
  destruct (api_putScript B id data (world s)) as [w1 [a|e]]; [reflexivity|].
  destruct (status_is 409 e); [|reflexivity].
  unfold printMessage at 1 2. cbv beta iota.
  match goal with
  | |- context [createOrUpdateScript _ _ fuel id ?d ?s1] =>
      specialize (IH d s1);
      destruct (createOrUpdateScript B applyNameCollisionPolicy fuel id d s1)
        as [s2 [[[st d']|]|e2]]
  end; cbn in *; congruence.
Qed.

(** X12: for as long as the writes are answered with a conflict the call
    goes on writing: it has not returned after any number of writes that
    all conflicted, each of them under the name the resolver made of the
    name before. *)
Theorem createOrUpdateScript_goes_on_while_conflicting
    (fuel : nat) (id : string) (data : ScriptSkeleton) (s : State B) :
  conflicts_throughout B applyNameCollisionPolicy fuel id data (world s) = true ->
  let '(s', r) :=
    createOrUpdateScript B applyNameCollisionPolicy fuel id data s in
  r = Fulfilled None /\
  sent s' =
    (sent s
       ++ map (fun i => PutScript id (renamed applyNameCollisionPolicy i data))
              (seq 0 fuel))%list.
Proof.
  revert data s. induction fuel as [|fuel IH]; intros data s Hc.
  - cbn. now rewrite app_nil_r.
  - cbn [createOrUpdateScript conflicts_throughout] in *.
    unfold try_catch, bind, putScript in *. unfold request at 1.
    destruct (api_putScript B id data (world s)) as [w1 [a|e]];
      [discriminate|].
    apply andb_true_iff in Hc. destruct Hc as [H409 Hc]. rewrite H409.
    unfold printMessage at 1 2. cbv beta iota.
    match goal with
    | |- context [createOrUpdateScript _ _ fuel id ?d ?s1] =>
        specialize (IH d s1 Hc);
        destruct (createOrUpdateScript B applyNameCollisionPolicy fuel id d s1)
          as [s2 r2]
    end.
    destruct IH as [-> Hsent]. split; [reflexivity|].
    rewrite Hsent. unfold sent. cbn. rewrite map_app. cbn.
    rewrite <- app_assoc. cbn [app]. do 2 f_equal.
    rewrite <- (seq_shift fuel 0), map_map. reflexivity.
Qed.

(** X13: the status reports an error only when the first write failed with
    something other than a conflict.  Once a write has conflicted the status
    reports success, whatever the retry that ended the call was answered
    with. *)
Theorem createOrUpdateScript_reports_error_only_at_first_write
    (k fuel : nat) (id : string) (data : ScriptSkeleton) (s : State B) :
  conflicts B applyNameCollisionPolicy k id data (world s) = true ->
  (k < fuel)%nat ->
  let '(_, r) :=
    createOrUpdateScript B applyNameCollisionPolicy fuel id data s in
  exists st data',
    r = Fulfilled (Some (st, data')) /\
    error st =
      match k with
      | O => negb (is_fulfilled (snd (api_putScript B id data (world s))))
      | S _ => false
      end.
Proof.
  intros Hc Hf. destruct fuel as [|fuel]; [lia|].
  cbn [createOrUpdateScript]. unfold try_catch, bind, putScript.
  unfold request at 1.
  destruct k as [|k]; cbn [conflicts] in Hc;
    destruct (api_putScript B id data (world s)) as [w1 [a|e]];
    try discriminate; cbn [snd is_fulfilled negb].
  - cbn. eauto.
  - apply negb_true_iff in Hc. rewrite Hc. cbn. eauto.
  - apply andb_true_iff in Hc. destruct Hc as [H409 Hc]. rewrite H409.
    unfold printMessage at 1 2. cbv beta iota.
    match goal with
    | |- context [createOrUpdateScript _ _ fuel id ?d ?s1] =>
        pose proof (createOrUpdateScript_retries_after_every_conflict_aux
                      B applyNameCollisionPolicy k fuel id d s1 Hc ltac:(lia))
          as Hret;
        destruct (createOrUpdateScript B applyNameCollisionPolicy fuel id d s1)
          as [s2 r2]
    end.
    cbn [snd] in Hret. destruct Hret as (st & d' & ->). cbn. eauto.
Qed.

End CreateOrUpdateScriptMore.

(** ** More runs on the concrete backend *)

Lemma putFullService_clean_of_unlisted_deletes_nothing_witness :
  heap (Demo.initial Demo.objects) !! 2%positive = Some (Demo.entry (Some [])) /\
  api_getServiceDescendents Demo.backend "ghost"
    (world (Demo.initial Demo.objects))
    = (1%nat, Rejected (HttpError 404 (Some "Not Found"))) /\
  let '(s', r) :=
    putFullService Demo.backend "ghost" (Some 2%positive) true
                   (Demo.initial Demo.objects) in
  exists res children more,
    exchanges s' =
      (exchanges (Demo.initial Demo.objects)
         ++ (GetServiceDescendents "ghost",
             Rejected (HttpError 404 (Some "Not Found")))
         :: (PutService "ghost" (stripped (Demo.entry (Some []))), res)
         :: children)%list /\
    res = settled_map Service
            (snd (api_putService Demo.backend "ghost"
                    (stripped (Demo.entry (Some []))) 1%nat)) /\
    Forall (fun x : Exchange => is_child_put (fst x) = true) children /\
    printed s' =
      (printed (Demo.initial Demo.objects)
         ++ preclean_report "ghost" (Rejected (HttpError 404 (Some "Not Found")))
         ++ more)%list /\
    Forall (fun line => exists d e, line = descendent_report "ghost" d e) more.
Proof.
  split; [reflexivity|]. split; [reflexivity|].
  exact (putFullService_clean_of_unlisted_deletes_nothing Demo.backend "ghost"
           2%positive (Demo.entry (Some [])) (Demo.initial Demo.objects)
           1%nat (HttpError 404 (Some "Not Found")) eq_refl eq_refl).
Defined.


Lemma putFullService_without_clean_writes_at_once_witness :
  heap (Demo.initial Demo.objects) !! 1%positive
    = Some (Demo.entry (Some [Demo.c1; Demo.c2])) /\
  let o := Demo.entry (Some [Demo.c1; Demo.c2]) in
  let s := Demo.initial Demo.objects in
  let '(s', r) := putFullService Demo.backend "svc1" (Some 1%positive) false s in
  exists res children more,
    exchanges s' =
      (exchanges s ++ (PutService "svc1" (stripped o), res) :: children)%list /\
    Forall (fun x : Exchange => is_child_put (fst x) = true) children /\
    res = settled_map Service
            (snd (api_putService Demo.backend "svc1" (stripped o) (world s))) /\
    printed s' = (printed s ++ more)%list /\
    Forall (fun line => exists d e, line = descendent_report "svc1" d e) more.
Proof.
  split; [reflexivity|].
  exact (putFullService_without_clean_writes_at_once Demo.backend "svc1"
           1%positive (Demo.entry (Some [Demo.c1; Demo.c2]))
           (Demo.initial Demo.objects) eq_refl).
Defined.

Lemma importService_twice_rejects_witness :
  service Demo.envelope
    = Some [("svc1", 1%positive); ("bad", 2%positive); ("svc4", 3%positive)] /\
  property "svc1" [("svc1", 1%positive); ("bad", 2%positive); ("svc4", 3%positive)]
    = Some 1%positive /\
  heap (Demo.initial Demo.objects) !! 1%positive
    = Some (Demo.entry (Some [Demo.c1; Demo.c2])) /\
  let o := Demo.entry (Some [Demo.c1; Demo.c2]) in
  let '(s1, _) :=
    importService Demo.backend "svc1" Demo.envelope false
                  (Demo.initial Demo.objects) in
  let '(s2, r2) := importService Demo.backend "svc1" Demo.envelope false s1 in
  heap s2 = heap s1 /\
  exists before res,
    exchanges s2 =
      (exchanges s1 ++ before ++ [(PutService "svc1" (stripped o), res)])%list /\
    Forall (fun x : Exchange => is_put (fst x) = false) before /\
    match res with
    | Fulfilled _ =>
        r2 = Rejected (TypeError
                "Cannot read properties of undefined (reading 'length')")
    | Rejected error => r2 = Rejected error
    end.
Proof.
  split; [reflexivity|]. split; [reflexivity|]. split; [reflexivity|].
  exact (importService_twice_rejects Demo.backend "svc1" Demo.envelope
           [("svc1", 1%positive); ("bad", 2%positive); ("svc4", 3%positive)]
           1%positive (Demo.entry (Some [Demo.c1; Demo.c2])) false false
           (Demo.initial Demo.objects) eq_refl eq_refl eq_refl).
Defined.

Lemma importService_of_missing_id_does_nothing_witness :
  service Demo.envelope
    = Some [("svc1", 1%positive); ("bad", 2%positive); ("svc4", 3%positive)] /\
  property "svc9" [("svc1", 1%positive); ("bad", 2%positive); ("svc4", 3%positive)]
    = None /\
  inherited "svc9" = false /\
  let s := Demo.initial Demo.objects in
  let '(s', r) := importService Demo.backend "svc9" Demo.envelope true s in
  r = Rejected (TypeError
         "Cannot read properties of undefined (reading 'nextDescendents')") /\
  exchanges s' = exchanges s /\ heap s' = heap s /\ printed s' = printed s /\
  world s' = world s.
Proof.
  split; [reflexivity|]. split; [reflexivity|]. split; [reflexivity|].
  exact (importService_of_missing_id_does_nothing Demo.backend "svc9"
           Demo.envelope
           [("svc1", 1%positive); ("bad", 2%positive); ("svc4", 3%positive)]
           true (Demo.initial Demo.objects) eq_refl eq_refl eq_refl).
Defined.

Lemma createOrUpdateScript_goes_on_while_conflicting_witness :
  conflicts_throughout Demo.backend Demo.policy 2 "id1" Demo.myScript
    (world (Demo.initial ∅)) = true /\
  let '(s', r) :=
    createOrUpdateScript Demo.backend Demo.policy 2 "id1" Demo.myScript
                         (Demo.initial ∅) in
  r = Fulfilled None /\
  sent s' =
    (sent (Demo.initial ∅)
       ++ map (fun i => PutScript "id1" (renamed Demo.policy i Demo.myScript))
              (seq 0 2))%list.
Proof.
  split; [reflexivity|].
  exact (createOrUpdateScript_goes_on_while_conflicting Demo.backend
           Demo.policy 2 "id1" Demo.myScript (Demo.initial ∅) eq_refl).
Defined.

Lemma createOrUpdateScript_reports_error_only_at_first_write_witness :
  conflicts Demo.backend Demo.policy 2 "id1" Demo.myScript
            (world (Demo.initial ∅)) = true /\
  (2 < 5)%nat /\
  let '(_, r) :=
    createOrUpdateScript Demo.backend Demo.policy 5 "id1" Demo.myScript
                         (Demo.initial ∅) in
  exists st data', r = Fulfilled (Some (st, data')) /\ error st = false.
Proof.
  split; [reflexivity|]. split; [lia|].
  exact (createOrUpdateScript_reports_error_only_at_first_write Demo.backend
           Demo.policy 2 5 "id1" Demo.myScript (Demo.initial ∅)
           eq_refl ltac:(lia)).
Defined.

Lemma exported_service_is_imported_as_fetched_witness :
  let exportData :=
    {| export_meta := ∅;
       export_service :=
         {[ "svc1" := Demo.entry (Some [Demo.c1; Demo.c2]) ]} |} in
  let s1 := fst (exportService Demo.backend "svc1" (Demo.initial ∅)) in
  let s2 := Demo.initial Demo.objects in
  exportService Demo.backend "svc1" (Demo.initial ∅)
    = (s1, Fulfilled exportData) /\
  export_service exportData !! "svc1"
    = Some (Demo.entry (Some [Demo.c1; Demo.c2])) /\
  heap s2 !! 1%positive = Some (Demo.entry (Some [Demo.c1; Demo.c2])) /\
  exists fetched descendents,
    In (GetService "svc1", Fulfilled (Service fetched)) (exchanges s1) /\
    In (GetServiceDescendents "svc1", Fulfilled (Descendents descendents))
       (exchanges s1) /\
    let payload :=
      {| skeleton :=
           {| service_id := service_id fetched;
              service_type_id := service_type_id fetched;
              fields := delete "enabled" (delete "_rev" (fields fetched)) |};
         nextDescendents := None |} in
    let '(s', r) := putFullService Demo.backend "svc1" (Some 1%positive) false s2 in
    exists before res,
      Forall (fun x : Exchange => is_put (fst x) = false) before /\
      match res with
      | Rejected error =>
          r = Rejected error /\
          exchanges s' =
            (exchanges s2 ++ before
               ++ [(PutService "svc1" payload, res)])%list
      | Fulfilled _ =>
          is_fulfilled r = true /\
          exists outcomes,
            length outcomes = length descendents /\
            exchanges s' =
              (exchanges s2 ++ before
                 ++ (PutService "svc1" payload, res)
                 :: zip (map (child_put "svc1") descendents) outcomes)%list
      end.
Proof.
  cbv zeta.
  split; [reflexivity|]. split; [reflexivity|]. split; [reflexivity|].
  exact (exported_service_is_imported_as_fetched Demo.backend "svc1"
           (Demo.initial ∅)
           (fst (exportService Demo.backend "svc1" (Demo.initial ∅)))
           {| export_meta := ∅;
              export_service :=
                {[ "svc1" := Demo.entry (Some [Demo.c1; Demo.c2]) ]} |}
           (Demo.entry (Some [Demo.c1; Demo.c2])) 1%positive false
           (Demo.initial Demo.objects) eq_refl eq_refl eq_refl).
Defined.

(** ** The commands on variables *)

Section VariablesCommands.
Context (V : VariablesApi) (data_code : ErrorData -> option string).
Implicit Types s : Stage (VariablesWorld V) VariableRequest unit.

Ltac run_command h :=
  unfold reports_as, task_bind, task_try, emit, call, settled, error_summary;
  cbn [remote issued output];
  destruct h as [w1 [a|e]]; cbn;
  [ split; [reflexivity|]; eexists;
    split; [rewrite <- ?app_assoc; reflexivity|]; auto
  | destruct (response e) as [[st [d|]]|]; cbn;
    (split; [reflexivity|]); eexists;
    (split; [rewrite <- ?app_assoc; reflexivity|]); eauto ].

(** X14: each of [createVariable], [updateVariable],
    [setDescriptionOfVariable] and [deleteVariableCmd] issues its one
    request and reports the outcome by stopping the progress indicator, with
    "success" or, for a failure that carries response data, with "fail" and
    the code and message of the data; it then fulfils.  For a failure
    without a response, or without data in it, the handler itself throws: the
    command rejects with a [TypeError] and the progress indicator is never
    stopped. *)
Theorem variable_commands_report_or_throw
    (variableId value description : string)
    (s : Stage (VariablesWorld V) VariableRequest unit) :
  reports_as V data_code
    ("Creating variable " +:+ variableId +:+ "...")
    ("Created variable " +:+ variableId)
    (PutVariable variableId value description)
    (snd (api_putVariable V variableId value description (remote s))) s
    (createVariable V data_code variableId value description s) /\
  reports_as V data_code
    ("Updating variable " +:+ variableId +:+ "...")
    ("Updated variable " +:+ variableId)
    (PutVariable variableId value description)
    (snd (api_putVariable V variableId value description (remote s))) s
    (updateVariable V data_code variableId value description s) /\
  reports_as V data_code
    ("Setting description of variable " +:+ variableId +:+ "...")
    ("Set description of variable " +:+ variableId)
    (SetVariableDescription variableId description)
    (snd (api_setVariableDescription V variableId description (remote s))) s
    (setDescriptionOfVariable V data_code variableId description s) /\
  reports_as V data_code
    ("Deleting variable " +:+ variableId +:+ "...")
    ("Deleted variable " +:+ variableId)
    (DeleteVariable variableId)
    (snd (api_deleteVariable V variableId (remote s))) s
    (deleteVariableCmd V data_code variableId s).
Proof.
  split; [|split; [|split]].
  - unfold createVariable, putVariable.
    run_command (api_putVariable V variableId value description (remote s)).
  - unfold updateVariable, putVariable.
    run_command (api_putVariable V variableId value description (remote s)).
  - unfold setDescriptionOfVariable, setVariableDescription.
    run_command (api_setVariableDescription V variableId description (remote s)).
  - unfold deleteVariableCmd, deleteVariable.
    run_command (api_deleteVariable V variableId (remote s)).
Qed.

End VariablesCommands.

Section DeleteVariables.
Context (V : VariablesApi) (data_code : ErrorData -> option string).
Implicit Types s : Stage (VariablesWorld V) VariableRequest unit.

Lemma error_summary_without_data (error : JsError) :
  has_data error = false ->
  exists thrown,
    error_summary data_code error = Rejected thrown /\
    response thrown = None.
Proof.
  unfold has_data, error_summary.
  destruct (response error) as [[st [d|]]|]; cbn; intros H;
    try discriminate; eauto.
Qed.

Lemma error_summary_with_data (error : JsError) :
  has_data error = true ->
  exists summary, error_summary data_code error = Fulfilled summary.
Proof.
  unfold has_data, error_summary.
  destruct (response error) as [[st [d|]]|]; cbn; intros H;
    try discriminate; eauto.
Qed.

(** The loop: it goes on over the failures that can be summarised and is
    ended by the first that cannot. *)
Lemma deleteVariablesCmd_loop_run (variables : list VariableSkeleton) s :
  let answers := deletions V variables (remote s) in
  let '(s', r) := deleteVariablesCmd_loop V data_code variables s in
  issued s' =
    (issued s
       ++ map (fun v => DeleteVariable (variable_id v))
              (take (S (survived answers)) variables))%list /\
  output s' =
    (output s
       ++ flat_map (fun p => deletion_report data_code (fst p) (snd p))
                   (take (survived answers) (zip variables answers)))%list /\
  if forallb survivable answers
  then r = Fulfilled tt
  else exists thrown, r = Rejected thrown /\ response thrown = None.
Proof.
  revert s. induction variables as [|x xs IH]; intros s;
    cbn [deleteVariablesCmd_loop deletions].
  - cbn. rewrite !app_nil_r. auto.
  - unfold task_bind at 1, task_try, task_bind at 1, deleteVariable, call.
    destruct (api_deleteVariable V (variable_id x) (remote s)) as [w1 [a|e]].
    + cbn [emit fst snd remote issued output].
      match goal with
      | |- context [deleteVariablesCmd_loop _ _ xs ?s1] =>
          specialize (IH s1);
          destruct (deleteVariablesCmd_loop V data_code xs s1) as [s2 r2]
      end.
      cbn [remote issued output] in IH. cbv zeta in IH |- *.
      destruct IH as (Hi & Ho & Hr).
      cbn [survived survivable forallb andb take zip zip_with map flat_map
           deletion_report fst snd].
      rewrite Hi, Ho, <- !app_assoc. auto.
    + cbv zeta. cbn [survived survivable forallb].
      destruct (has_data e) eqn:Hd.
      * destruct (error_summary_with_data e Hd) as [summary Hs].
        unfold settled, task_bind at 1. rewrite Hs.
        cbn [emit fst snd remote issued output].
        match goal with
        | |- context [deleteVariablesCmd_loop _ _ xs ?s1] =>
            specialize (IH s1);
            destruct (deleteVariablesCmd_loop V data_code xs s1) as [s2 r2]
        end.
        cbn [remote issued output] in IH. cbv zeta in IH.
        destruct IH as (Hi & Ho & Hr).
        cbn [andb take zip zip_with map flat_map deletion_report fst snd].
        rewrite Hs, Hi, Ho, <- !app_assoc. auto.
      * destruct (error_summary_without_data e Hd) as (thrown & Hs & Hth).
        unfold settled, task_bind at 1. rewrite Hs.
        cbn. rewrite app_nil_r. eauto.
Qed.

(** X15: [deleteVariablesCmd] deletes the listed variables one after the
    other.  A deletion that fails with response data is printed and the loop
    goes on; the first deletion that fails without a response, or without
    data in it, ends the command: no further variable is deleted, the
    progress indicator is not stopped, and the command rejects with the
    [TypeError] that the handlers throw.  The same holds when the variables
    cannot be listed: the failure is printed when it carries data and thrown
    on as a [TypeError] when it does not. *)
Theorem deleteVariablesCmd_stops_at_unsummarisable_failure
    (s : Stage (VariablesWorld V) VariableRequest unit) :
  let '(w1, listed) := api_getVariables V (remote s) in
  let '(s', r) := deleteVariablesCmd V data_code s in
  match listed with
  | Rejected error =>
      issued s' = (issued s ++ [GetVariables])%list /\
      match error_summary data_code error with
      | Fulfilled summary =>
          r = Fulfilled tt /\
          output s' = (output s ++ [Printed summary (Some "error")])%list
      | Rejected thrown => r = Rejected thrown /\ output s' = output s
      end
  | Fulfilled variables =>
      let answers := deletions V variables w1 in
      issued s' =
        (issued s ++ GetVariables
           :: map (fun v => DeleteVariable (variable_id v))
                  (take (S (survived answers)) variables))%list /\
      output s' =
        (output s
           ++ ProgressCreated (Some (length variables)) "Deleting variable..."
                None
           :: flat_map (fun p => deletion_report data_code (fst p) (snd p))
                       (take (survived answers) (zip variables answers))
           ++ (if forallb survivable answers
               then [ProgressStopped "Variables deleted." None]
               else []))%list /\
      r = if forallb survivable answers
          then Fulfilled tt
          else Rejected
                 (TypeError
                    "Cannot read properties of undefined (reading 'data')")
  end.
Proof.
  unfold deleteVariablesCmd, task_try, task_bind at 1, getVariables, call.
  destruct (api_getVariables V (remote s)) as [w1 [variables|e]].
  - unfold task_bind at 1. cbn [emit].
    unfold task_bind at 1.
    match goal with
    | |- context [deleteVariablesCmd_loop _ _ variables ?s1] =>
        pose proof (deleteVariablesCmd_loop_run variables s1) as Hloop;
        destruct (deleteVariablesCmd_loop V data_code variables s1) as [s2 r2]
    end.
    cbn [remote issued output] in Hloop. cbv zeta in Hloop |- *.
    destruct Hloop as (Hi & Ho & Hr).
    destruct (forallb survivable (deletions V variables w1)).
    + subst r2. cbn. rewrite Hi, Ho, <- !app_assoc. auto.
    + destruct Hr as (thrown & -> & Hth).
      unfold settled, task_bind, error_summary. rewrite Hth.
      rewrite Hi, Ho, <- !app_assoc, app_nil_r. auto.
  - cbn [fst snd]. unfold settled, task_bind.
    destruct (error_summary data_code e) as [summary|thrown]; cbn; auto.
Qed.

End DeleteVariables.

(** The variables [a], [locked] and [b]: [locked] cannot be deleted, which is
    printed, and [b] is deleted all the same. *)
Example deleteVariablesCmd_goes_on_run :
  let '(s', r) :=
    deleteVariablesCmd DemoCli.variables DemoCli.code
      (DemoCli.stage_of [DemoCli.v "a"; DemoCli.v "locked"; DemoCli.v "b"]) in
  r = Fulfilled tt /\
  issued s' = [GetVariables; DeleteVariable "a"; DeleteVariable "locked";
               DeleteVariable "b"] /\
  output s' =
    [ ProgressCreated (Some 3%nat) "Deleting variable..." None;
      ProgressUpdated "Deleted variable a";
      Printed "Error: 403 - Forbidden" (Some "error");
      ProgressUpdated "Deleted variable b";
      ProgressStopped "Variables deleted." None ] /\
  remote s' = [DemoCli.v "locked"].
Proof. vm_compute. repeat split. Qed.

(** The variables [a], [gone] and [b]: the deletion of [gone] fails without
    a response, [b] is not deleted and the command rejects. *)
Example deleteVariablesCmd_stops_run :
  let '(s', r) :=
    deleteVariablesCmd DemoCli.variables DemoCli.code
      (DemoCli.stage_of [DemoCli.v "a"; DemoCli.v "gone"; DemoCli.v "b"]) in
  r = Rejected
        (TypeError "Cannot read properties of undefined (reading 'data')") /\
  issued s' = [GetVariables; DeleteVariable "a"; DeleteVariable "gone"] /\
  output s' =
    [ ProgressCreated (Some 3%nat) "Deleting variable..." None;
      ProgressUpdated "Deleted variable a" ] /\
  remote s' = [DemoCli.v "gone"; DemoCli.v "b"].
Proof. vm_compute. repeat split. Qed.

(** ** The script exports *)

Section ScriptExportFacts.
Context (S : ScriptsApi).
Context (getTypedFilename : string -> string -> string).
Context (convertBase64TextToArray : string -> list string).
Context (realm : string).
Implicit Types s : Stage (ScriptsWorld S) ScriptRequest (list ScriptExport).

(** X16: [exportScriptByName] rejects, saving and printing nothing, when the
    script cannot be read.  Otherwise it saves one file with all the scripts
    of that name, to the file given or, when none or the empty name is
    given, to the typed file name of the script; that there are several
    scripts of the name is printed as an error and does not keep them from
    being saved. *)
Theorem exportScriptByName_saves_all_of_the_name
    (scriptName : string) (file : option string)
    (s : Stage (ScriptsWorld S) ScriptRequest (list ScriptExport)) :
  let '(w1, answer) := api_getScriptByName S scriptName (remote s) in
  let '(s', r) :=
    exportScriptByName S getTypedFilename convertBase64TextToArray
      scriptName file s in
  issued s' = (issued s ++ [GetScriptByName scriptName])%list /\
  match answer with
  | Rejected error => r = Rejected error /\ output s' = output s
  | Fulfilled scriptData =>
      r = Fulfilled tt /\
      output s' =
        (output s
           ++ (if (1 <? length scriptData)%nat
               then [Printed ("Multiple scripts with name " +:+ scriptName
                                +:+ " found...") (Some "error")]
               else [])
           ++ [Saved "script" (map (as_text_array convertBase64TextToArray) scriptData) "_id"
                 match file with
                 | Some f =>
                     if String.eqb f ""
                     then getTypedFilename scriptName "script" else f
                 | None => getTypedFilename scriptName "script"
                 end])%list
  end.
Proof.
  unfold exportScriptByName, task_bind at 1, getScriptByName, call.
  destruct (api_getScriptByName S scriptName (remote s)) as [w1 [scriptData|e]].
  - unfold task_bind. destruct (1 <? length scriptData)%nat;
      cbn [emit task_ret fst snd remote issued output];
      (split; [reflexivity|]); (split; [reflexivity|]);
      rewrite <- ?app_assoc; cbn [app]; do 3 f_equal;
      destruct file as [f|]; cbn; try reflexivity;
      destruct (String.eqb f ""); reflexivity.
  - cbn. auto.
Qed.

Lemma exportScriptsToFile_loop_run (scriptList : list ScriptSkeleton)
    (allScriptsData : list ScriptExport) s :
  let answers := readings S scriptList (remote s) in
  let '(s', r) :=
    exportScriptsToFile_loop S convertBase64TextToArray scriptList
      allScriptsData s in
  issued s' =
    (issued s ++ map (fun item => GetScriptByName (name item))
                     (attempted answers scriptList))%list /\
  (exists new,
     output s' = (output s ++ new)%list /\
     List.filter is_saved new = [] /\ List.filter is_stopped new = []) /\
  r = match first_failure answers with
      | None =>
          Fulfilled
            (allScriptsData
               ++ concat (map (map (as_text_array convertBase64TextToArray))
                         (leading answers)))%list
      | Some error => Rejected error
      end.
Proof.
  revert allScriptsData s.
  induction scriptList as [|x xs IH]; intros acc s;
    cbn [exportScriptsToFile_loop readings].
  - cbn. rewrite !app_nil_r. repeat split; auto.
    exists []. now rewrite app_nil_r.
  - unfold task_bind at 1. cbn [emit].
    unfold task_bind at 1, getScriptByName, call. cbn [remote issued output].
    destruct (api_getScriptByName S (name x) (remote s)) as [w1 [scriptData|e]].
    + match goal with
      | |- context [exportScriptsToFile_loop _ _ xs ?a ?s1] =>
          specialize (IH a s1);
          destruct (exportScriptsToFile_loop S convertBase64TextToArray xs a s1)
            as [s2 r2]
      end.
      cbn [remote issued output] in IH. cbv zeta in IH |- *.
      destruct IH as (Hi & (new & Ho & Hs & Hst) & Hr).
      unfold attempted in *. cbn [first_failure leading length map concat].
      split.
      { rewrite Hi, <- app_assoc.
        destruct (first_failure (readings S xs w1)); reflexivity. }
      split.
      { eexists. split; [rewrite Ho, <- app_assoc; reflexivity|].
        cbn. auto. }
      rewrite Hr. destruct (first_failure (readings S xs w1));
        [reflexivity|]. now rewrite <- app_assoc.
    + cbv zeta. unfold attempted. cbn. repeat split; auto.
      eexists. split; [reflexivity|]. cbn. auto.
Qed.

(** X17: [exportScriptsToFile] saves nothing until every listed script has
    been read.  When the reading of a script fails it rejects with that
    failure, has read no script after it, has saved no file and has not
    stopped the progress indicator; when all are read it saves one file with
    the scripts in the order of the list. *)
Theorem exportScriptsToFile_saves_all_or_nothing
    (file : option string)
    (s : Stage (ScriptsWorld S) ScriptRequest (list ScriptExport)) :
  let '(w1, listed) := api_getScripts S (remote s) in
  let '(s', r) :=
    exportScriptsToFile S getTypedFilename convertBase64TextToArray realm
      file s in
  match listed with
  | Rejected error =>
      r = Rejected error /\ output s' = output s /\
      issued s' = (issued s ++ [GetScripts])%list
  | Fulfilled scriptList =>
      let answers := readings S scriptList w1 in
      issued s' =
        (issued s ++ GetScripts
           :: map (fun item => GetScriptByName (name item))
                  (attempted answers scriptList))%list /\
      exists new,
        output s' = (output s ++ new)%list /\
        match first_failure answers with
        | Some error =>
            r = Rejected error /\
            List.filter is_saved new = [] /\ List.filter is_stopped new = []
        | None =>
            r = Fulfilled tt /\
            List.filter is_saved new =
              [Saved "script"
                 (concat (map (map (as_text_array convertBase64TextToArray))
                         (leading answers)))
                 "_id"
                 match file with
                 | Some f =>
                     if String.eqb f ""
                     then getTypedFilename ("all" +:+ realm +:+ "Scripts")
                            "script"
                     else f
                 | None =>
                     getTypedFilename ("all" +:+ realm +:+ "Scripts") "script"
                 end]
        end
  end.
Proof.
  unfold exportScriptsToFile, task_bind at 1, getScripts, call.
  destruct (api_getScripts S (remote s)) as [w1 [scriptList|e]].
  2:{ cbn. auto. }
  unfold task_bind at 1. cbn [emit]. unfold task_bind at 1.
  match goal with
  | |- context [exportScriptsToFile_loop _ _ scriptList [] ?s1] =>
      pose proof (exportScriptsToFile_loop_run scriptList [] s1) as Hloop;
      destruct (exportScriptsToFile_loop S convertBase64TextToArray
                  scriptList [] s1) as [s2 r2]
  end.
  cbn [remote issued output] in Hloop. cbv zeta in Hloop |- *.
  destruct Hloop as (Hi & (new & Ho & Hs & Hst) & Hr).
  destruct (first_failure (readings S scriptList w1)) as [error|]; subst r2.
  - split; [rewrite Hi, <- app_assoc; reflexivity|].
    eexists. split; [rewrite Ho, <- app_assoc; reflexivity|].
    cbn. auto.
  - unfold task_bind. cbn [emit fst snd remote issued output].
    split; [rewrite Hi, <- app_assoc; reflexivity|].
    eexists. split; [rewrite Ho, <- !app_assoc; reflexivity|].
    split; [reflexivity|].
    rewrite !List.filter_app, Hs.
    cbn. do 2 f_equal.
    destruct file as [f|]; cbn; try reflexivity.
    destruct (String.eqb f ""); reflexivity.
Qed.

Lemma exportScriptsToFiles_loop_run (scriptList : list ScriptSkeleton) s :
  let answers := readings S scriptList (remote s) in
  let '(s', r) :=
    exportScriptsToFiles_loop S getTypedFilename convertBase64TextToArray
      scriptList s in
  issued s' =
    (issued s ++ map (fun item => GetScriptByName (name item))
                     (attempted answers scriptList))%list /\
  (exists new,
     output s' = (output s ++ new)%list /\
     List.filter is_saved new =
       map (fun p => file_of getTypedFilename convertBase64TextToArray
                       (fst p) (snd p))
           (zip scriptList (leading answers)) /\
     List.filter is_stopped new = []) /\
  r = match first_failure answers with
      | None => Fulfilled tt
      | Some error => Rejected error
      end.
Proof.
  revert s. induction scriptList as [|x xs IH]; intros s;
    cbn [exportScriptsToFiles_loop readings].
  - cbn. rewrite !app_nil_r. repeat split; auto.
    exists []. now rewrite app_nil_r.
  - unfold task_bind at 1. cbn [emit].
    unfold task_bind at 1, getScriptByName, call. cbn [remote issued output].
    destruct (api_getScriptByName S (name x) (remote s)) as [w1 [scriptData|e]].
    + unfold task_bind at 1. cbn [emit remote issued output].
      match goal with
      | |- context [exportScriptsToFiles_loop _ _ _ xs ?s1] =>
          specialize (IH s1);
          destruct (exportScriptsToFiles_loop S getTypedFilename
                      convertBase64TextToArray xs s1) as [s2 r2]
      end.
      cbn [remote issued output] in IH. cbv zeta in IH |- *.
      destruct IH as (Hi & (new & Ho & Hs & Hst) & Hr).
      unfold attempted in *.
      cbn [first_failure leading length map zip zip_with fst snd].
      split.
      { rewrite Hi, <- app_assoc.
        destruct (first_failure (readings S xs w1)); reflexivity. }
      split; [|exact Hr].
      eexists. split; [rewrite Ho, <- !app_assoc; reflexivity|].
      cbn [app List.filter is_saved is_stopped]. rewrite Hs, Hst. auto.
    + cbv zeta. unfold attempted. cbn. repeat split; auto.
      eexists. split; [reflexivity|]. cbn. auto.
Qed.

(** X18: [exportScriptsToFiles] saves the file of a script as soon as the
    script is read.  When the reading of a script fails it rejects with that
    failure: the files of the scripts before it in the list have been saved,
    those of the scripts after it have not, and the progress indicator is
    not stopped. *)
Theorem exportScriptsToFiles_saves_up_to_first_failure
    (s : Stage (ScriptsWorld S) ScriptRequest (list ScriptExport)) :
  let '(w1, listed) := api_getScripts S (remote s) in
  let '(s', r) :=
    exportScriptsToFiles S getTypedFilename convertBase64TextToArray s in
  match listed with
  | Rejected error =>
      r = Rejected error /\ output s' = output s /\
      issued s' = (issued s ++ [GetScripts])%list
  | Fulfilled scriptList =>
      let answers := readings S scriptList w1 in
      issued s' =
        (issued s ++ GetScripts
           :: map (fun item => GetScriptByName (name item))
                  (attempted answers scriptList))%list /\
      exists new,
        output s' = (output s ++ new)%list /\
        List.filter is_saved new =
          map (fun p => file_of getTypedFilename convertBase64TextToArray
                          (fst p) (snd p))
              (zip scriptList (leading answers)) /\
        match first_failure answers with
        | Some error => r = Rejected error /\ List.filter is_stopped new = []
        | None =>
            r = Fulfilled tt /\
            List.filter is_stopped new = [ProgressStopped "Done" None]
        end
  end.
Proof.
  unfold exportScriptsToFiles, task_bind at 1, getScripts, call.
  destruct (api_getScripts S (remote s)) as [w1 [scriptList|e]].
  2:{ cbn. auto. }
  unfold task_bind at 1. cbn [emit]. unfold task_bind at 1.
  match goal with
  | |- context [exportScriptsToFiles_loop _ _ _ scriptList ?s1] =>
      pose proof (exportScriptsToFiles_loop_run scriptList s1) as Hloop;
      destruct (exportScriptsToFiles_loop S getTypedFilename
                  convertBase64TextToArray scriptList s1) as [s2 r2]
  end.
  cbn [remote issued output] in Hloop. cbv zeta in Hloop |- *.
  destruct Hloop as (Hi & (new & Ho & Hs & Hst) & Hr).
  destruct (first_failure (readings S scriptList w1)) as [error|]; subst r2.
  - split; [rewrite Hi, <- app_assoc; reflexivity|].
    eexists. split; [rewrite Ho, <- app_assoc; reflexivity|].
    cbn. auto.
  - cbn [emit fst snd remote issued output].
    split; [rewrite Hi, <- app_assoc; reflexivity|].
    eexists. split; [rewrite Ho, <- !app_assoc; reflexivity|].
    cbn [List.filter is_saved is_stopped].
    rewrite !List.filter_app, Hs, Hst. cbn. rewrite app_nil_r. auto.
Qed.

End ScriptExportFacts.

(** The scripts [one], [broken] and [two]: the file of [one] is saved, then
    the reading of [broken] fails, and the file of [two] is never saved. *)
Example exportScriptsToFiles_run :
  let '(s', r) :=
    exportScriptsToFiles DemoCli.scripts DemoCli.typed DemoCli.lines
      (DemoCli.scripts_of [DemoCli.sc "1" "one"; DemoCli.sc "2" "broken";
                           DemoCli.sc "3" "two"]) in
  r = Rejected (HttpError 500 (Some "Internal Server Error")) /\
  issued s' = [GetScripts; GetScriptByName "one"; GetScriptByName "broken"] /\
  output s' =
    [ ProgressCreated (Some 3%nat) "Exporting script" None;
      ProgressUpdated "Reading script one";
      Saved "script" [mkScriptExport "1" "one" [""]] "_id" "one.script.json";
      ProgressUpdated "Reading script broken" ].
Proof. vm_compute. repeat split. Qed.

(** The same scripts exported to one file: nothing is saved. *)
Example exportScriptsToFile_run :
  let '(s', r) :=
    exportScriptsToFile DemoCli.scripts DemoCli.typed DemoCli.lines "alpha"
      None
      (DemoCli.scripts_of [DemoCli.sc "1" "one"; DemoCli.sc "2" "broken";
                           DemoCli.sc "3" "two"]) in
  r = Rejected (HttpError 500 (Some "Internal Server Error")) /\
  output s' =
    [ ProgressCreated (Some 3%nat) "Exporting script" None;
      ProgressUpdated "Reading script one";
      ProgressUpdated "Reading script broken" ].
Proof. vm_compute. repeat split. Qed.

(** ** The generators of API instances *)

Section BaseApiFacts.
Context (userAgent transactionId : string).
Context (url_parse : string -> BaseApi.ParsedUrl).





Lemma lookup_union_first (m1 m2 : gmap string string) (k : string) :
  (m1 ∪ m2) !! k = match m1 !! k with Some v => Some v | None => m2 !! k end.
Proof. rewrite lookup_union. destruct (m1 !! k), (m2 !! k); reflexivity. Qed.

(** X21: [generateAmApi] and [generateOauth2Api] merge the headers: for
    every header, the authentication header override of the session comes
    first, then the header of the request override, then the header the
    generator sets itself.  Of the latter, [Cookie] is there exactly when
    the session knows both the name and the value of the cookie. *)
Theorem merged_headers_precedence
    (g : BaseApi.Generator) (env : BaseApi.Environment)
    (session : BaseApi.Session) (o : BaseApi.RequestOverride)
    (st : BaseApi.ModuleState) :
  BaseApi.merges_headers g = true ->
  (forall k : string,
     BaseApi.headers_of userAgent transactionId url_parse g env session o st
       !! k =
     match BaseApi.getAuthenticationHeaderOverrides session !! k with
     | Some v => Some v
     | None =>
         match BaseApi.o_headers o with
         | Some overridden =>
             match overridden !! k with
             | Some v => Some v
             | None =>
                 BaseApi.headers_of userAgent transactionId url_parse g env
                   (BaseApi.plain session) BaseApi.no_override st !! k
             end
         | None =>
             BaseApi.headers_of userAgent transactionId url_parse g env
               (BaseApi.plain session) BaseApi.no_override st !! k
         end
     end) /\
  BaseApi.headers_of userAgent transactionId url_parse g env
    (BaseApi.plain session) BaseApi.no_override st !! "Cookie" =
  match BaseApi.truthy_string (BaseApi.getCookieName session),
        BaseApi.truthy_string (BaseApi.getCookieValue session) with
  | Some cookieName, Some cookieValue =>
      Some (cookieName +:+ "=" +:+ cookieValue)
  | _, _ => None
  end.
Proof.
  intros Hg.
  assert (Hcreate : forall env session st t (h : gmap string string) x,
            BaseApi.rd_headers
              (BaseApi.config
                 (fst (fst (BaseApi.create url_parse env session st t h x))))
            = h).
  { intros env0 session0 st0 t h x. unfold BaseApi.create.
    destruct (BaseApi.getHttpAgent st0) as [a st1].
    destruct (BaseApi.getHttpsAgent url_parse env0 session0 st1) as [[b st2] w].
    reflexivity. }
  destruct g; try discriminate; unfold BaseApi.headers_of; cbn [BaseApi.generate];
    unfold BaseApi.generateAmApi, BaseApi.generateOauth2Api;
    rewrite !Hcreate; cbn [BaseApi.plain BaseApi.no_override
      BaseApi.o_headers BaseApi.getAuthenticationHeaderOverrides
      BaseApi.getCookieName BaseApi.getCookieValue];
    (split;
     [ intros k; rewrite !lookup_union_first, lookup_empty;
       destruct (BaseApi.getAuthenticationHeaderOverrides session !! k);
       [reflexivity|];
       destruct (BaseApi.o_headers o) as [overridden|];
       [ rewrite lookup_union_first; destruct (overridden !! k) | ];
       reflexivity
     | rewrite lookup_union_first, lookup_empty; unfold BaseApi.with_cookie;
       cbn [BaseApi.plain BaseApi.getCookieName BaseApi.getCookieValue];
       destruct (BaseApi.truthy_string (BaseApi.getCookieName session));
       destruct (BaseApi.truthy_string (BaseApi.getCookieValue session));
       unfold BaseApi.spread_if;
       destruct (BaseApi.truthy_string (BaseApi.apiVersion resource));
       rewrite ?lookup_insert_eq; try reflexivity;
       repeat (rewrite lookup_insert_ne by discriminate);
       now rewrite lookup_singleton_ne by discriminate ]).
Qed.

(** X22: the other generators do not merge the headers: a request override
    that has headers replaces the headers of the generator altogether, so
    that [User-Agent] and [Content-Type] are sent only if the caller gives
    them, and the authentication header overrides of the session are not
    applied.  The generators that send the bearer token set [Authorization]
    after that, over the header of the caller. *)
Theorem replaced_headers_keep_only_the_bearer
    (g : BaseApi.Generator) (env : BaseApi.Environment)
    (session : BaseApi.Session) (o : BaseApi.RequestOverride)
    (overridden : gmap string string) (st : BaseApi.ModuleState) :
  BaseApi.merges_headers g = false ->
  BaseApi.o_headers o = Some overridden ->
  forall k : string,
    BaseApi.headers_of userAgent transactionId url_parse g env session o st
      !! k =
    match (if BaseApi.sends_bearer g && String.eqb k "Authorization"
           then BaseApi.truthy_string (BaseApi.getBearerToken session)
           else None) with
    | Some token => Some ("Bearer " +:+ token)
    | None => overridden !! k
    end.
Proof.
  intros Hg Ho k.
  assert (Hcreate : forall env session st t (h : gmap string string) x,
            BaseApi.rd_headers
              (BaseApi.config
                 (fst (fst (BaseApi.create url_parse env session st t h x))))
            = h).
  { intros env0 session0 st0 t h x. unfold BaseApi.create.
    destruct (BaseApi.getHttpAgent st0) as [a st1].
    destruct (BaseApi.getHttpsAgent url_parse env0 session0 st1) as [[b st2] w].
    reflexivity. }
  destruct g; try discriminate; unfold BaseApi.headers_of; cbn [BaseApi.generate];
    unfold BaseApi.generateIdmApi, BaseApi.generateLogKeysApi,
      BaseApi.generateLogApi, BaseApi.generateESVApi,
      BaseApi.generateReleaseApi;
    rewrite Hcreate, Ho; cbn [default BaseApi.sends_bearer andb];
    try reflexivity;
    unfold BaseApi.with_bearer, BaseApi.spread_if;
    destruct (String.eqb k "Authorization") eqn:Hk;
    destruct (BaseApi.truthy_string (BaseApi.getBearerToken session));
    try reflexivity;
    try (apply String.eqb_eq in Hk; subst k; apply lookup_insert_eq);
    apply String.eqb_neq in Hk; apply lookup_insert_ne; congruence.
Qed.

End BaseApiFacts.

Lemma merged_headers_precedence_witness :
  let parse := fun _ : string =>
    {| BaseApi.hostname := None; BaseApi.port := None;
       BaseApi.protocol := None |} in
  let env := {| BaseApi.HTTPS_PROXY := None; BaseApi.https_proxy := None |} in
  let resource :=
    {| BaseApi.path := "/realm-config/services";
       BaseApi.apiVersion := Some "protocol=2.0,resource=1.0" |} in
  let o :=
    {| BaseApi.o_timeout := None;
       BaseApi.o_headers :=
         Some {[ "Cookie" := "mine"; "X-Override" := "2" ]};
       BaseApi.o_httpAgent := None; BaseApi.o_httpsAgent := None;
       BaseApi.o_proxy := None; BaseApi.o_others := ∅ |} in
  BaseApi.merges_headers (BaseApi.AmApi resource) = true /\
  (forall k : string,
     BaseApi.headers_of "frodo-lib/0.16.1" "frodo-1" parse
       (BaseApi.AmApi resource) env BaseApi.demo_session o BaseApi.fresh
       !! k =
     match BaseApi.getAuthenticationHeaderOverrides BaseApi.demo_session !! k
     with
     | Some v => Some v
     | None =>
         match BaseApi.o_headers o with
         | Some overridden =>
             match overridden !! k with
             | Some v => Some v
             | None =>
                 BaseApi.headers_of "frodo-lib/0.16.1" "frodo-1" parse
                   (BaseApi.AmApi resource) env
                   (BaseApi.plain BaseApi.demo_session) BaseApi.no_override
                   BaseApi.fresh !! k
             end
         | None =>
             BaseApi.headers_of "frodo-lib/0.16.1" "frodo-1" parse
               (BaseApi.AmApi resource) env
               (BaseApi.plain BaseApi.demo_session) BaseApi.no_override
               BaseApi.fresh !! k
         end
     end) /\
  BaseApi.headers_of "frodo-lib/0.16.1" "frodo-1" parse
    (BaseApi.AmApi resource) env (BaseApi.plain BaseApi.demo_session)
    BaseApi.no_override BaseApi.fresh !! "Cookie" =
  match BaseApi.truthy_string (BaseApi.getCookieName BaseApi.demo_session),
        BaseApi.truthy_string (BaseApi.getCookieValue BaseApi.demo_session)
  with
  | Some cookieName, Some cookieValue =>
      Some (cookieName +:+ "=" +:+ cookieValue)
  | _, _ => None
  end.
Proof.
  cbv zeta. split; [reflexivity|].
  exact (merged_headers_precedence "frodo-lib/0.16.1" "frodo-1" _
           (BaseApi.AmApi _) _ BaseApi.demo_session _ BaseApi.fresh eq_refl).
Defined.

Lemma replaced_headers_keep_only_the_bearer_witness :
  let parse := fun _ : string =>
    {| BaseApi.hostname := None; BaseApi.port := None;
       BaseApi.protocol := None |} in
  let env := {| BaseApi.HTTPS_PROXY := None; BaseApi.https_proxy := None |} in
  let overridden : gmap string string :=
    {[ "Authorization" := "Basic mine"; "Accept" := "text/plain" ]} in
  let o :=
    {| BaseApi.o_timeout := None; BaseApi.o_headers := Some overridden;
       BaseApi.o_httpAgent := None; BaseApi.o_httpsAgent := None;
       BaseApi.o_proxy := None; BaseApi.o_others := ∅ |} in
  BaseApi.merges_headers BaseApi.IdmApi = false /\
  BaseApi.o_headers o = Some overridden /\
  forall k : string,
    BaseApi.headers_of "frodo-lib/0.16.1" "frodo-1" parse BaseApi.IdmApi env
      BaseApi.demo_session o BaseApi.fresh !! k =
    match (if BaseApi.sends_bearer BaseApi.IdmApi
              && String.eqb k "Authorization"
           then BaseApi.truthy_string
                  (BaseApi.getBearerToken BaseApi.demo_session)
           else None) with
    | Some token => Some ("Bearer " +:+ token)
    | None => overridden !! k
    end.
Proof.
  cbv zeta. split; [reflexivity|]. split; [reflexivity|].
  exact (replaced_headers_keep_only_the_bearer "frodo-lib/0.16.1" "frodo-1" _
           BaseApi.IdmApi _ BaseApi.demo_session
           {| BaseApi.o_timeout := None;
              BaseApi.o_headers :=
                Some {[ "Authorization" := "Basic mine";
                        "Accept" := "text/plain" ]};
              BaseApi.o_httpAgent := None; BaseApi.o_httpsAgent := None;
              BaseApi.o_proxy := None; BaseApi.o_others := ∅ |}
           _ BaseApi.fresh eq_refl eq_refl).
Defined.
